(** * astromatic_wrapper: a shallow embedding of the Python sources

    The development follows the layout of the repository:

    - [py]        the fragment of Python's run-time behaviour the sources rely
                  on (exceptions, a state-and-exception monad);
    - [utils]     [astromatic_wrapper/utils/utils.py];
    - [ldac]      [astromatic_wrapper/utils/ldac.py];
    - [api]       the command builder exercised by [tests/test_api.py];
    - [pipeline]  [astromatic_wrapper/pipeline.py].

    Definitions come first, the properties after them. *)

From Stdlib Require Import ZArith Ascii String List Sorted Lia Bool.
From stdpp Require Import base option list strings pretty gmap.

Local Open Scope string_scope.
Local Open Scope Z_scope.

(* ===================================================================== *)
(** * Part I: definitions                                                  *)
(* ===================================================================== *)

Module py.

(** The exceptions the sources raise themselves or provoke in the
    interpreter.  An exception carries what a caller can observe of it. *)
Inductive exn : Type :=
| AstromaticError (msg : string)      (* utils.AstromaticError *)
| PipelineError (msg : string)        (* pipeline.PipelineError *)
| AttributeError (obj attr : string)  (* [obj] has no attribute [attr] *)
| NameError (name : string)           (* global name is not defined *)
| UnboundLocalError (name : string)   (* local read before assignment *)
| KeyError (key : string)
| TypeError (msg : string)
| ValueError (msg : string)
| EOFError
| OSError (path : string)
| IOError (path : string)
| IndexError.

(** The result of evaluating a Python expression or statement. *)
Inductive res (A : Type) : Type :=
| Ok (a : A)
| Raise (e : exn).
Arguments Ok {A} a.
Arguments Raise {A} e.

(** Statements act on a state [S] and either complete or raise. *)
Definition M (S A : Type) : Type := S -> res A * S.

Definition ret {S A} (a : A) : M S A := fun s => (Ok a, s).
Definition raise {S A} (e : exn) : M S A := fun s => (Raise e, s).
Definition bind {S A B} (m : M S A) (k : A -> M S B) : M S B :=
  fun s => match m s with
           | (Ok a, s') => k a s'
           | (Raise e, s') => (Raise e, s')
           end.
Definition get {S} : M S S := fun s => (Ok s, s).
Definition put {S} (s : S) : M S unit := fun _ => (Ok tt, s).

Definition lift {S A} (r : res A) : M S A := fun s => (r, s).

Declare Scope py_scope.
Delimit Scope py_scope with py.
Notation "x <- m ;; k" := (bind m (fun x => k))
  (at level 100, m at next level, right associativity) : py_scope.
Notation "m ;;; k" := (bind m (fun _ => k))
  (at level 100, right associativity) : py_scope.

(** ** Strings *)

(** [str.lower] on the ASCII letters; every other character is kept.  No
    character outside ASCII lowers to a letter of true, yes, false or no,
    so the byte-wise reading decides [str_2_bool] as the Unicode one. *)
Definition lower_ascii (c : ascii) : ascii :=
  let n := N_of_ascii c in
  if ((65 <=? n) && (n <=? 90))%N then ascii_of_N (n + 32) else c.

Fixpoint lower (s : string) : string :=
  match s with
  | EmptyString => EmptyString
  | String c r => String (lower_ascii c) (lower r)
  end.

(** [s.startswith(p)] *)
Definition startswith (s p : string) : bool := String.prefix p s.

(** [sep.join(l)] *)
Fixpoint join (sep : string) (l : list string) : string :=
  match l with
  | [] => EmptyString
  | [x] => x
  | x :: rest => x ++ sep ++ join sep rest
  end.

End py.

Import py.
Local Open Scope py_scope.

(* --------------------------------------------------------------------- *)
(** ** astromatic_wrapper/utils/utils.py                                   *)
(* --------------------------------------------------------------------- *)

Module utils.

(** [str_2_bool(bool_str)] *)
Definition str_2_bool (bool_str : string) : res bool :=
  let lower_str := lower bool_str in
  if startswith "true" lower_str || startswith "yes" lower_str then Ok true
  else if startswith "false" lower_str || startswith "no" lower_str then Ok false
  else Raise (AstromaticError
         ("'" ++ bool_str ++
          "' did not match a boolean expression  (true/false, yes/no, t/f, y/n)")).

(** The strings that start each of the four words of [str_2_bool]. *)
Definition prefixes_of_true : list string := [EmptyString; "t"; "tr"; "tru"; "true"].
Definition prefixes_of_yes : list string := [EmptyString; "y"; "ye"; "yes"].
Definition prefixes_of_false : list string :=
  [EmptyString; "f"; "fa"; "fal"; "fals"; "false"].
Definition prefixes_of_no : list string := [EmptyString; "n"; "no"].

(** The operating-system calls of [create_paths] and [check_path], as the
    interface the module consumes. *)
Class OS (FS : Type) : Type := {
  os_path_exists : FS -> string -> bool;
  os_path_isdir : FS -> string -> bool;
  (** [os.makedirs]: it completes or raises ([OSError], or for a path it
      cannot take, such as one with a NUL character, [ValueError]); the file
      system it leaves may hold directories it made on the way also when it
      raises. *)
  os_makedirs : FS -> string -> res unit * FS
}.

(** What the functions of the module act on: the lines the user will type,
    what has been printed, and the file system. *)
Record World (FS : Type) : Type := mkWorld {
  stdin : list string;
  stdout : list string;
  fs : FS
}.
Arguments mkWorld {FS} _ _ _.
Arguments stdin {FS} _.
Arguments stdout {FS} _.
Arguments fs {FS} _.

Section WithOS.
Context {FS : Type} `{OS FS}.

(** A local variable that no assignment has bound yet. *)
Definition unbound_local (name : string) : res string :=
  Raise (UnboundLocalError name).

(** [get_bool(prompt)], by recursion on the lines still to be typed: each
    call shows the prompt and takes one line ([raw_input]), and the source
    calls itself only after that; with no line left, [raw_input] raises
    [EOFError].  The handler formats its message with the local
    [bool_str], which the failed assignment has not bound: reading it
    raises [UnboundLocalError] before anything is printed and before the
    recursive call. *)
Fixpoint get_bool_from (lines : list string) (prompt : string)
    (out : list string) (f : FS) : res bool * World FS :=
  match lines with
  | [] => (Raise EOFError, mkWorld [] (out ++ [prompt]) f)
  | line :: rest =>
      match str_2_bool line with
      | Ok bool_str => (Ok bool_str, mkWorld rest (out ++ [prompt]) f)
      | Raise (AstromaticError _) =>
          match unbound_local "bool_str" with
          | Ok bool_str =>
              get_bool_from rest prompt
                (out ++ [prompt; "'" ++ bool_str ++
                   "' did not match a boolean expression (true/false, yes/no, t/f, y/n)"])
                f
          | Raise e => (Raise e, mkWorld rest (out ++ [prompt]) f)
          end
      | Raise e => (Raise e, mkWorld rest (out ++ [prompt]) f)
      end
  end.

Definition get_bool (prompt : string) : M (World FS) bool :=
  fun w => get_bool_from (stdin w) prompt (stdout w) (fs w).

(** [create_paths(paths)] on the list it iterates over.  Only [OSError]
    is caught; [os.path.isdir] then looks at the file system as
    [os.makedirs] left it. *)
Fixpoint create_paths_list (paths : list string) : M (World FS) unit :=
  match paths with
  | [] => ret tt
  | path :: rest =>
      (fun w =>
         match os_makedirs (fs w) path with
         | (Ok _, fs') => (Ok tt, mkWorld (stdin w) (stdout w) fs')
         | (Raise (OSError _), fs') =>
             if os_path_isdir fs' path
             then (Ok tt, mkWorld (stdin w) (stdout w) fs')
             else (Raise (AstromaticError
                     "Problem creating new directory, check user permissions"),
                   mkWorld (stdin w) (stdout w) fs')
         | (Raise e, fs') => (Raise e, mkWorld (stdin w) (stdout w) fs')
         end) ;;;
      create_paths_list rest
  end.

(** The argument of [create_paths]: one path or a list of them. *)
Inductive paths_arg : Type :=
| OnePath (path : string)
| ManyPaths (paths : list string).

Definition create_paths (paths : paths_arg) : M (World FS) unit :=
  match paths with
  | OnePath p => create_paths_list [p]
  | ManyPaths l => create_paths_list l
  end.

(** [check_path(path, auto_create=False)].  [auto_create] is a parameter
    of the function and is not read by its body. *)
Definition check_path (path : string) (auto_create : bool)
  : M (World FS) unit :=
  w <- get ;;
  if negb (os_path_exists (fs w) path) then
    b <- get_bool ("'" ++ path ++ "' does not exist, create (y/n)?") ;;
    if b then create_paths (OnePath path)
    else raise (AstromaticError (path ++ " does not exist"))
  else ret tt.

End WithOS.

(** A file system to run the functions on: the set of directories that
    exist.  [os.makedirs] refuses a path that is there and otherwise adds it
    with the directories above it. *)
Fixpoint parents_from (seen rest : string) : list string :=
  match rest with
  | EmptyString => []
  | String c rest' =>
      let here := if (seen =? EmptyString)%string then [] else [seen] in
      if Ascii.eqb c "/"%char
      then here ++ parents_from (seen ++ String c EmptyString) rest'
      else parents_from (seen ++ String c EmptyString) rest'
  end.

Definition parents (path : string) : list string :=
  parents_from EmptyString path.

#[export] Instance dirs_OS : OS (gset string) := {
  os_path_exists dirs p := bool_decide (p ∈ dirs);
  os_path_isdir dirs p := bool_decide (p ∈ dirs);
  os_makedirs dirs p :=
    if bool_decide (p ∈ dirs) then (Raise (OSError p), dirs)
    else (Ok tt, dirs ∪ {[ p ]} ∪ list_to_set (parents p))
}.

(** The design note of the specification on missing paths, as it is
    worded: what [check_path] does is decided by the file system and
    [auto_create], whatever is typed; and with [auto_create] on, the path
    is made and nothing is asked. *)
Definition decided_without_input : Prop :=
  forall (path : string) (auto_create : bool) (w1 w2 : World (gset string)),
    fs w1 = fs w2 ->
    fst (check_path path auto_create w1) = fst (check_path path auto_create w2)
    /\ fs (snd (check_path path auto_create w1))
       = fs (snd (check_path path auto_create w2)).

Definition created_unprompted : Prop :=
  forall (path : string) (w : World (gset string)),
    os_path_exists (fs w) path = false ->
    fst (check_path path true w) = Ok tt
    /\ stdin (snd (check_path path true w)) = stdin w.

(** The list [create_paths] iterates over. *)
Definition paths_of (paths : paths_arg) : list string :=
  match paths with
  | OnePath p => [p]
  | ManyPaths l => l
  end.

(** The message of [create_paths]. *)
Definition cannot_create : string :=
  "Problem creating new directory, check user permissions".

End utils.

(* --------------------------------------------------------------------- *)
(** ** astromatic_wrapper/utils/ldac.py                                    *)
(* --------------------------------------------------------------------- *)

Module ldac.

(** *** The astropy objects the module handles *)

(** A FITS header: keyword and value of each card, in order. *)
Definition Header : Type := list (string * string).

(** [header[key] = value]: the card is replaced where it stands, or added
    at the end. *)
Fixpoint header_set (h : Header) (key value : string) : Header :=
  match h with
  | [] => [(key, value)]
  | (k, v) :: rest =>
      if (k =? key)%string then (key, value) :: rest
      else (k, v) :: header_set rest key value
  end.

Definition header_get (h : Header) (key : string) : option string :=
  snd <$> List.find (fun kv => (fst kv =? key)%string) h.

(** A table is its column names and its rows; a cell is kept as it is
    stored (a float by its bits: nothing here computes with it).
    [CMasked] is a cell without value.  [CHeaderText h sep] stands for the
    text [header.tostring(sep)] gives for the cards [h], as a column of
    format [13200A] holds it; the text itself is astropy's. *)
Inductive cell : Type :=
| CInt (z : Z)
| CStr (s : string)
| CFloat (bits : Z)
| CMasked
| CHeaderText (h : Header) (sep : string).

Record Table : Type := mkTable {
  colnames : list string;
  rows : list (list cell)
}.

(** A header-data unit: the primary one, or a binary table. *)
Inductive hdu_kind : Type := PrimaryHDU | BinTableHDU.

Record HDU : Type := mkHDU {
  kind : hdu_kind;
  header : Header;
  data : option Table
}.

Definition HDUList : Type := list HDU.

(** [isinstance(hdu, BinTableHDU)] *)
Definition is_table (h : HDU) : bool :=
  match kind h with
  | BinTableHDU => true
  | PrimaryHDU => false
  end.

(** The records of a table unit; a table unit made without data has none. *)
Definition records (h : HDU) : Table := default (mkTable [] []) (data h).

(** Keywords of [HDUList.writeto] that decide whether the file is
    written: the overwrite switch ([clobber] in the astropy the sources
    were written for), off unless passed. *)
Record writeto_kwargs : Type := mkKw { clobber : bool }.

Definition no_kwargs : writeto_kwargs := mkKw false.

Section Astropy.
(** The cards astropy writes for the primary unit and for a table. *)
Variable primary_header : Header.
Variable bintable_header : Table -> Header.

(** [tbl.write(f, format='fits')] on a new temporary file, followed by
    [fits.open(f)]: the records the table unit of the file holds, or what is
    raised when the temporary file cannot be made or the table has a column
    FITS cannot hold. *)
Variable Table_write : Table -> res Table.

(** The table [Table.read] makes of the records of a unit.  It need not be
    the table that was written: reading does not keep trailing blanks of a
    string, and, depending on the version, masks empty strings and NaN. *)
Variable from_fits : Table -> Table.

(** Whether the operating system lets a file of that name be written (its
    directory is there and permits it). *)
Variable writable : string -> bool.

(** The list [fits.open] returns for the temporary file: an empty primary
    unit and the table. *)
Definition table_to_fits (tbl : Table) : res HDUList :=
  match Table_write tbl with
  | Ok stored =>
      Ok [ mkHDU PrimaryHDU primary_header None;
           mkHDU BinTableHDU (bintable_header stored) (Some stored) ]
  | Raise e => Raise e
  end.

(** [fits.BinTableHDU(data)] and [BinTableHDU.from_columns]. *)
Definition new_bintable (data : option Table) : HDU :=
  let tbl := default (mkTable [] []) data in
  mkHDU BinTableHDU (bintable_header tbl) (Some tbl).

(** [convert_hdu_to_ldac(hdu)] *)
Definition convert_hdu_to_ldac (hdu : HDU) : HDU * HDU :=
  let tblhdr := CHeaderText (header hdu) "," in
  let col1 := mkTable ["Field Header Card"] [[tblhdr]] in
  let tbl1 := new_bintable (Some col1) in
  let tbl1 := mkHDU (kind tbl1)
                (header_set
                   (header_set (header tbl1) "TDIM1"
                      ("(80, " ++ pretty (length (header hdu)) ++ ")"))
                   "EXTNAME" "LDAC_IMHEAD")
                (data tbl1) in
  let tbl2 := new_bintable (data hdu) in
  let tbl2 := mkHDU (kind tbl2)
                (header_set (header tbl2) "EXTNAME" "LDAC_OBJECTS")
                (data tbl2) in
  (tbl1, tbl2).

(** [convert_table_to_ldac(tbl)] *)
Definition convert_table_to_ldac (tbl : Table) : res HDUList :=
  match table_to_fits tbl with
  | Ok hdulist =>
      match hdulist !! 0%nat, hdulist !! 1%nat with
      | Some hdu0, Some hdu1 =>
          let '(tbl1, tbl2) := convert_hdu_to_ldac hdu1 in
          Ok [hdu0; tbl1; tbl2]
      | _, _ => Raise IndexError
      end
  | Raise e => Raise e
  end.

(** The files on disk, by name. *)
Definition files : Type := gmap string HDUList.

(** [hdulist.writeto(filename, **kwargs)]: astropy refuses to replace a
    file that is there unless told to, and the operating system may refuse
    the file. *)
Definition writeto (hdulist : HDUList) (filename : string)
    (kwargs : writeto_kwargs) : M files unit :=
  fun disk =>
    let write :=
      if writable filename then (Ok tt, <[filename := hdulist]> disk)
      else (Raise (IOError filename), disk) in
    match disk !! filename with
    | Some _ =>
        if clobber kwargs then write
        else (Raise (IOError filename), disk)
    | None => write
    end.

(** [save_table_as_ldac(tbl, filename, **kwargs)] *)
Definition save_table_as_ldac (tbl : Table) (filename : string)
    (kwargs : writeto_kwargs) : M files unit :=
  hdulist <- lift (convert_table_to_ldac tbl) ;;
  writeto hdulist filename kwargs.

(** [Table.read(filename, hdu=k)].  astropy collects the table units of
    the file by their index.  With several of them, [k] has to be the index
    of one, counted from 0 and from the front: any other [k], a negative one
    included, raises [ValueError].  With a single one it is read whatever
    [k] is, and with none [ValueError] is raised. *)
Definition Table_read (filename : string) (hdu : Z) : M files Table :=
  fun disk =>
    match disk !! filename with
    | None => (Raise (IOError filename), disk)
    | Some hdulist =>
        match List.filter is_table hdulist with
        | [] => (Raise (ValueError "No table found"), disk)
        | [only] => (Ok (from_fits (records only)), disk)
        | _ :: _ :: _ =>
            match (if 0 <=? hdu then hdulist !! Z.to_nat hdu else None) with
            | Some h =>
                if is_table h then (Ok (from_fits (records h)), disk)
                else (Raise (ValueError ("No table found in hdu=" ++ pretty hdu)), disk)
            | None => (Raise (ValueError ("No table found in hdu=" ++ pretty hdu)), disk)
            end
        end
    end.

(** [get_table_from_ldac(filename, frame=1)] *)
Definition get_table_from_ldac (filename : string) (frame : Z) : M files Table :=
  let frame := if 0 <? frame then frame * 2 else frame in
  Table_read filename frame.

End Astropy.

(** *** Sample data

    A table, the cards astropy would write, and a disk on which a catalogue
    is already there. *)
Definition sample_table : Table :=
  mkTable ["XWIN_WORLD"; "YWIN_WORLD"; "MAG_AUTO"]
          [[CInt 220; CInt 0; CInt (-9)]; [CInt 221; CInt 1; CInt (-12)]].

Definition other_table : Table := mkTable ["FLUX"] [[CInt 7]].

(** A table with a string that ends in blanks. *)
Definition padded_table : Table := mkTable ["NAME"] [[CStr "ab  "]].

Definition sample_primary : Header := [("SIMPLE", "T"); ("NAXIS", "0")].

Definition sample_bintable_header (t : Table) : Header :=
  [("XTENSION", "BINTABLE"); ("TFIELDS", pretty (length (colnames t)))].

(** Writing stores the cells of the table. *)
Definition sample_write (t : Table) : res Table := Ok t.

(** [s.rstrip(' ')] *)
Fixpoint rstrip (s : string) : string :=
  match s with
  | EmptyString => EmptyString
  | String c rest =>
      match rstrip rest with
      | EmptyString => if Ascii.eqb c " " then EmptyString else String c EmptyString
      | rest' => String c rest'
      end
  end.

(** Whether the bits of a double are those of a NaN. *)
Definition is_nan (bits : Z) : bool :=
  (Z.land (Z.shiftr bits 52) 2047 =? 2047) && negb (Z.land bits (2 ^ 52 - 1) =? 0).

(** Reading as astropy does it at present: the trailing blanks of a string
    are gone, and an empty string or a NaN comes back masked. *)
Definition read_cell (c : cell) : cell :=
  match c with
  | CStr s =>
      match rstrip s with
      | EmptyString => CMasked
      | s' => CStr s'
      end
  | CFloat bits => if is_nan bits then CMasked else CFloat bits
  | _ => c
  end.

Definition sample_read (t : Table) : Table :=
  mkTable (colnames t) (map (map read_cell) (rows t)).

(** The sample disk is one directory: a name with a slash points into a
    directory that is not there. *)
Fixpoint has_slash (s : string) : bool :=
  match s with
  | EmptyString => false
  | String c rest => Ascii.eqb c "/" || has_slash rest
  end.

Definition sample_writable (filename : string) : bool := negb (has_slash filename).

Definition disk_with_catalog : files :=
  {[ "cat.fits" :=
       [ mkHDU PrimaryHDU sample_primary None;
         mkHDU BinTableHDU [] None;
         mkHDU BinTableHDU [] (Some other_table) ] ]}.

(** The round trip as it is worded: saving and reading frame 1 back gives
    the table, whatever the table and the file name. *)
Definition round_trip_for_every_file : Prop :=
  forall (tbl : Table) (filename : string) (disk : files),
  exists disk',
    save_table_as_ldac sample_primary sample_bintable_header sample_write
      sample_writable tbl filename no_kwargs disk = (Ok tt, disk')
    /\ fst (get_table_from_ldac sample_read filename 1 disk') = Ok tbl.

(** *** The layout of a file of several frames

    The LDAC file that stands for a FITS file of tables: the primary unit,
    then for each table the two units [convert_hdu_to_ldac] makes of it. *)
Definition ldac_units (bintable_header : Table -> Header) (hdu : HDU) : list HDU :=
  [fst (convert_hdu_to_ldac bintable_header hdu);
   snd (convert_hdu_to_ldac bintable_header hdu)].

Definition ldac_of_fits (bintable_header : Table -> Header) (hdulist : HDUList)
  : HDUList :=
  match hdulist with
  | [] => []
  | primary :: tables => primary :: flat_map (ldac_units bintable_header) tables
  end.

(** A FITS file of two tables. *)
Definition two_frames : HDUList :=
  [ mkHDU PrimaryHDU sample_primary None;
    mkHDU BinTableHDU (sample_bintable_header sample_table) (Some sample_table);
    mkHDU BinTableHDU (sample_bintable_header other_table) (Some other_table) ].

End ldac.

(* --------------------------------------------------------------------- *)
(** ** The command builder ([api.Astromatic.build_cmd])                    *)
(* --------------------------------------------------------------------- *)

Module api.

(** A configuration value: text, a number, or a boolean. *)
Inductive value : Type :=
| VStr (s : string)
| VInt (z : Z)
| VBool (b : bool).

(** The configuration mapping, in insertion order. *)
Definition config : Type := list (string * value).

(** [config[key] = v] on an ordered mapping: a key that is there keeps its
    place, a new one goes to the end. *)
Fixpoint config_set (c : config) (key : string) (v : value) : config :=
  match c with
  | [] => [(key, v)]
  | (k, x) :: rest =>
      if (k =? key)%string then (key, v) :: rest
      else (k, x) :: config_set rest key v
  end.

(** [OrderedDict(pairs)] *)
Definition OrderedDict (pairs : list (string * value)) : config :=
  fold_left (fun c kv => config_set c (fst kv) (snd kv)) pairs [].

(** Modelled from the spec: [api.py], the module of [Astromatic.build_cmd],
    is missing; only its tests are in the sources.  Spec 4.1 and 6: a value
    is written as it is, a boolean as the token [Y] or [N]. *)
Definition token_of_value (v : value) : string :=
  match v with
  | VStr s => s
  | VInt z => pretty z
  | VBool true => "Y"
  | VBool false => "N"
  end.

(** Modelled from the spec: [api.py] is missing.  Spec 4.1: each
    configuration value is serialized as [-<KEY> <value>]. *)
Definition override (kv : string * value) : list string :=
  ["-" ++ fst kv; token_of_value (snd kv)].

(** Modelled from the spec: [api.py] is missing.  Spec 4.1 and 6: the
    command is [<tool> <files> [-c <config_file>] [-<KEY> <value>]...],
    the overrides in the order of the mapping.  The catalog-parameter file
    and the frame selector of 4.1 are left out: the commands considered
    here have neither. *)
Definition build_cmd_tokens (tool : string) (files : list string)
    (config_file : option string) (cfg : config) : list string :=
  tool :: files
    ++ match config_file with Some c => ["-c"; c] | None => [] end
    ++ flat_map override cfg.

(** Modelled from the spec: [api.py] is missing.  The command line is the
    tokens separated by one space, as [test_build_cmd] compares it. *)
Definition build_cmd (tool : string) (files : list string)
    (config_file : option string) (cfg : config) : string :=
  join " " (build_cmd_tokens tool files config_file cfg).

(** How Python prints a boolean. *)
Definition python_bool_token (b : bool) : string :=
  if b then "True" else "False".

(** The mapping of [test_build_cmd]. *)
Definition sex_config : config :=
  OrderedDict [ ("CATALOG_NAME", VStr "test.fits");
                ("CATALOG_TYPE", VStr "FITS_LDAC");
                ("PARAMETERS_NAME", VStr "default.path");
                ("FILTER", VBool false) ].

End api.

(* --------------------------------------------------------------------- *)
(** ** astromatic_wrapper/pipeline.py                                      *)
(* --------------------------------------------------------------------- *)

(** The file does not parse as it stands: [pipeline steps] for the list the
    comprehension iterates over, a comma missing in the [dict] of the error
    branch, and in [PipelineStep.__init__] a parameter without default after
    one with.  They are read as [pipeline_steps], with the comma, and as
    positional parameters.  Every name that does parse is taken as it is
    written, also where no assignment backs it: [self.tags], [step.ste_id],
    [result.meta] and the global [log]. *)

Module pipeline.

Definition tag : Type := string.

(** *** Values that travel through the engine *)
Inductive scalar : Type :=
| SNone
| SBool (b : bool)
| SInt (z : Z)
| SStr (s : string).

(** An astropy table of warnings: its [meta] and its rows, a row giving
    the cell of each column. *)
Definition row : Type := list (string * scalar).

Record Table : Type := mkTable {
  tmeta : list (string * scalar);
  trows : list row
}.

Inductive pyval : Type :=
| VScalar (s : scalar)
| VTable (t : Table).

(** A [dict] with string keys.  The engine only looks keys up. *)
Definition dict : Type := list (string * pyval).

Definition dict_contains (d : dict) (key : string) : bool :=
  existsb (fun kv => (fst kv =? key)%string) d.

Definition dict_getitem (d : dict) (key : string) : res pyval :=
  match List.find (fun kv => (fst kv =? key)%string) d with
  | Some kv => Ok (snd kv)
  | None => Raise (KeyError key)
  end.

Fixpoint dict_setitem (d : dict) (key : string) (v : pyval) : dict :=
  match d with
  | [] => [(key, v)]
  | (k, x) :: rest =>
      if (k =? key)%string then (key, v) :: rest
      else (k, x) :: dict_setitem rest key v
  end.

(** [v == s] for a [str] literal [s]. *)
Definition eq_str (v : pyval) (s : string) : bool :=
  match v with
  | VScalar (SStr x) => (x =? s)%string
  | _ => false
  end.

(** What a step function returns: a [dict] (every runner documents one with
    at least a [status] key).  A plain [dict] has no attribute [meta]; an
    object of a class that adds one has. *)
Record PyResult : Type := mkResult {
  items : dict;
  meta : option dict
}.

(** [table[column] = value] with one value for all rows: a column the
    table does not have is added with the value in every row.  (Into a
    column that is there numpy casts the value to the type of the column,
    which a table kept row by row does not record; the rows then hold the
    value as it is given.) *)
Fixpoint row_set (r : row) (column : string) (v : scalar) : row :=
  match r with
  | [] => [(column, v)]
  | (k, x) :: rest =>
      if (k =? column)%string then (column, v) :: rest
      else (k, x) :: row_set rest column v
  end.

Definition table_setcolumn (t : Table) (column : string) (v : scalar) : Table :=
  mkTable (tmeta t) (map (fun r => row_set r column v) (trows t)).

(** [obj[column] = value] on whatever [result['warnings']] holds. *)
Definition setitem (obj : pyval) (column : string) (v : pyval) : res Table :=
  match obj, v with
  | VTable t, VScalar s => Ok (table_setcolumn t column s)
  | VTable _, VTable _ => Raise (TypeError "a table is not a column value")
  | VScalar _, _ => Raise (TypeError "object does not support item assignment")
  end.

(** The [meta] of a stacked table: the entries of the first table, then
    the new ones of the second; under a key both have, the second table's
    value unless it is [None]. *)
Definition merge_meta (a b : list (string * scalar)) : list (string * scalar) :=
  fold_left
    (fun out kv =>
       if existsb (fun x => (fst x =? fst kv)%string) out then
         match snd kv with
         | SNone => out
         | v => row_set out (fst kv) v
         end
       else (out ++ [kv])%list)
    b a.

(** [astropy.table.vstack([a, b])]: the rows of [a], then those of [b]. *)
Definition vstack (a b : Table) : Table :=
  mkTable (merge_meta (tmeta a) (tmeta b)) (trows a ++ trows b).

(** The built-in runners, methods of [Pipeline]. *)
Inductive Runner : Type := run_sex | run_scamp | run_psfex | run_swarp.

(** The ids [start], [start + 1], ... *)
Fixpoint ids_from (start : Z) (n : nat) : list Z :=
  match n with
  | O => []
  | S n' => start :: ids_from (start + 1) n'
  end.

(** The rows of [t] with the two columns [run] adds to them. *)
Definition tagged_rows (t : Table) (filename : scalar) (id : Z) : list row :=
  map (fun r => row_set (row_set r "filename" filename) "step" (SInt id)) (trows t).

(** The names the module reads from its global scope and never defines. *)
Record Globals : Type := mkGlobals { log : option pyval }.

Section Engine.
(** What step functions act on (files, processes, ...). *)
Variable World : Type.

(** A callable as a step holds it: it takes the positional argument of
    the call and the keyword arguments. *)
Definition behaviour : Type := pyval -> dict -> M World PyResult.

(** The [func] argument of [add_step] and field of a step. *)
Inductive PyFunc : Type :=
| FStr (name : string)          (* a [str] *)
| FUser (f : behaviour)         (* a function of the caller *)
| FMethod (r : Runner)          (* [self.run_sex], ... *)
| FOther.                       (* neither a [str] nor callable *)

(** [PipelineStep].  [__init__] assigns [func], [tags], [step_id] and
    [func_kwargs]; [ste_id] is the attribute [Pipeline.run] reads, there
    only on a step object that was given one from outside. *)
Record PipelineStep : Type := mkStep {
  func : PyFunc;
  step_id : Z;
  tags : list tag;
  func_kwargs : dict;
  ste_id : option pyval
}.

Definition PipelineStep_init (func : PyFunc) (step_id : Z) (tags : list tag)
    (func_kwargs : dict) : PipelineStep :=
  mkStep func step_id tags func_kwargs None.

(** The fields of [Pipeline] that [add_step] and [run] use.  [__init__]
    assigns [steps] and [next_id]; [self_tags] is the attribute
    [self.tags] that [run] reads, there only on a pipeline object that
    was given one from outside. *)
Record Pipeline : Type := mkPipeline {
  steps : list PipelineStep;
  next_id : Z;
  self_tags : option (list tag)
}.

(** [self.steps = steps; self.next_id = 0] *)
Definition Pipeline_init (steps : list PipelineStep) : Pipeline :=
  mkPipeline steps 0 None.

(** The keys of [api.codes]; the module [api] it is imported from is not
    part of the sources. *)
Variable codes : list string.

(** What the bound runner methods do when called; their bodies hand over
    to [api.Astromatic]. *)
Variable builtin : Runner -> behaviour.

Definition not_a_code : string :=
  "You must either pass a function for the pipeline to run or the name of an astromatic code".

(** The first statement of [add_step]: a [str] is replaced by the runner
    it names. *)
Definition resolve_func (func : PyFunc) : res PyFunc :=
  match func with
  | FStr name =>
      if bool_decide (name ∈ codes) then
        if (name =? "SExtractor")%string then Ok (FMethod run_sex)
        else if (name =? "SCAMP")%string then Ok (FMethod run_scamp)
        else if (name =? "PSFEx")%string then Ok (FMethod run_psfex)
        else if (name =? "SWARP")%string then Ok (FMethod run_swarp)
        else Raise (PipelineError not_a_code)
      else Raise (PipelineError not_a_code)
  | _ => Ok func
  end.

(** [add_step(self, func, tags, **kwargs)] *)
Definition add_step (func : PyFunc) (tags : list tag) (kwargs : dict)
  : M Pipeline unit :=
  func <- lift (resolve_func func) ;;
  self <- get ;;
  let step_id := next_id self in
  put (mkPipeline
         (steps self ++ [PipelineStep_init func step_id tags kwargs])
         (next_id self + 1)
         (self_tags self)).

(** What a call of [add_step] that registers [f] leaves behind. *)
Definition registered (self : Pipeline) (f : PyFunc)
    (tags : list tag) (kwargs : dict) : Pipeline :=
  mkPipeline (steps self ++ [PipelineStep_init f (next_id self) tags kwargs])
             (next_id self + 1) (self_tags self).

(** The arguments of one call of [add_step]. *)
Record registration : Type := mkRegistration {
  reg_func : PyFunc;
  reg_tags : list tag;
  reg_kwargs : dict
}.

(** [add_step] for each registration in turn; a caller that catches the
    [PipelineError] of one goes on with the next. *)
Fixpoint add_steps (regs : list registration) (self : Pipeline) : Pipeline :=
  match regs with
  | [] => self
  | r :: rest =>
      add_steps rest
        (snd (add_step (reg_func r) (reg_tags r) (reg_kwargs r) self))
  end.

(** Whether a registration gets past the first statement of [add_step]. *)
Definition accepted (r : registration) : bool :=
  match resolve_func (reg_func r) with Ok _ => true | Raise _ => false end.

(** *** [Pipeline.run]

    The state of a run: the world of the step functions, and the ids of
    the steps whose function has been called, in call order (kept for
    the statements below; the source keeps no such record). *)
Record State : Type := mkState {
  world : World;
  calls : list Z
}.

(** [f(arg, **kwargs)] *)
Definition call (step_id : Z) (f : PyFunc) (arg : pyval) (kwargs : dict)
  : M State PyResult :=
  let run_body (g : behaviour) : M State PyResult :=
    fun st =>
      let '(r, w) := g arg kwargs (world st) in
      (r, mkState w (calls st ++ [step_id])) in
  match f with
  | FUser g => run_body g
  | FMethod r => run_body (builtin r)
  | FStr _ => raise (TypeError "'str' object is not callable")
  | FOther => raise (TypeError "object is not callable")
  end.

(** Attribute and name lookups of [run] that [__init__] does not back. *)
Definition getattr_tags (self : Pipeline) : M State (list tag) :=
  match self_tags self with
  | Some ts => ret ts
  | None => raise (AttributeError "Pipeline" "tags")
  end.

Definition getattr_ste_id (step : PipelineStep) : M State pyval :=
  match ste_id step with
  | Some v => ret v
  | None => raise (AttributeError "PipelineStep" "ste_id")
  end.

Definition getattr_meta (result : PyResult) : M State dict :=
  match meta result with
  | Some m => ret m
  | None => raise (AttributeError "dict" "meta")
  end.

Definition global_log (g : Globals) : M State pyval :=
  match log g with
  | Some v => ret v
  | None => raise (NameError "log")
  end.

(** [any([tag in among for tag in ts])] *)
Definition any_tag_in (ts among : list tag) : bool :=
  existsb (fun tag => bool_decide (tag ∈ among)) ts.

(** The condition of the list comprehension, evaluated for one [step]:
    [(len(run_tags) == 0 or any([tag in run_tags for tag in self.tags]))
     and not any([tag in ignore_tags for tag in self.tags])]. *)
Definition step_condition (self : Pipeline) (run_tags ignore_tags : list tag)
    (step : PipelineStep) : M State bool :=
  left <- (if (length run_tags =? 0)%nat then ret true
           else ts <- getattr_tags self ;; ret (any_tag_in ts run_tags)) ;;
  if left : bool then
    ts <- getattr_tags self ;; ret (negb (any_tag_in ts ignore_tags))
  else ret false.

(** [[step for step in pipeline_steps if ...]] *)
Fixpoint select_steps (self : Pipeline) (run_tags ignore_tags : list tag)
    (pipeline_steps : list PipelineStep) : M State (list PipelineStep) :=
  match pipeline_steps with
  | [] => ret []
  | step :: rest =>
      keep <- step_condition self run_tags ignore_tags step ;;
      selected <- select_steps self run_tags ignore_tags rest ;;
      ret (if keep : bool then step :: selected else selected)
  end.

(** The [if 'warnings' in result:] block.  The table is changed in place,
    so the result the step returned shows the two new columns too. *)
Definition gather_warnings (step : PipelineStep) (result : PyResult)
    (all_warnings : option Table) : M State (PyResult * option Table) :=
  if dict_contains (items result) "warnings" then
    warnings <- lift (dict_getitem (items result) "warnings") ;;
    m <- getattr_meta result ;;
    filename <- lift (dict_getitem m "filename") ;;
    warnings <- lift (setitem warnings "filename" filename) ;;
    warnings <- lift (setitem (VTable warnings) "step"
                        (VScalar (SInt (step_id step)))) ;;
    let result := mkResult (dict_setitem (items result) "warnings" (VTable warnings))
                           (meta result) in
    ret (result,
         match all_warnings with
         | None => Some warnings
         | Some all => Some (vstack all warnings)
         end)
  else ret (result, all_warnings).

(** The [dict] that [run] returns. *)
Inductive RunResult : Type :=
| RunSuccess (warnings : option Table)
    (* [{'status': 'success', 'warnings': all_warnings}] *)
| RunError (function_result : PyResult) (warnings : option Table) (log : pyval).
    (* [{'status': 'error', 'function_result': result,
         'warnings': all_warnings, 'log': log}] *)

(** [for step in steps: ...] and the statements after the loop. *)
Fixpoint run_loop (g : Globals) (steps : list PipelineStep)
    (all_warnings : option Table) : M State RunResult :=
  match steps with
  | [] => ret (RunSuccess all_warnings)
  | step :: rest =>
      arg <- getattr_ste_id step ;;
      result <- call (step_id step) (func step) arg (func_kwargs step) ;;
      gathered <- gather_warnings step result all_warnings ;;
      let result := fst gathered in
      let all_warnings := snd gathered in
      status <- lift (dict_getitem (items result) "status") ;;
      if eq_str status "error" then
        log <- global_log g ;;
        ret (RunError result all_warnings log)
      else run_loop g rest all_warnings
  end.

(** [run(self, run_tags=[], ignore_tags=[], pipeline_steps=None)] *)
Definition run (g : Globals) (self : Pipeline) (run_tags ignore_tags : list tag)
    (pipeline_steps : option (list PipelineStep)) : M State RunResult :=
  let pipeline_steps := default (steps self) pipeline_steps in
  steps <- select_steps self run_tags ignore_tags pipeline_steps ;;
  run_loop g steps None.

(** The selection rule as the specification words it, for comparison
    with [select_steps]: a step runs iff ([run_tags] is empty or one of
    the step's tags is in [run_tags]) and none of the step's tags is in
    [ignore_tags]. *)
Definition spec_selected (run_tags ignore_tags : list tag)
    (step : PipelineStep) : bool :=
  ((length run_tags =? 0)%nat || any_tag_in (tags step) run_tags)
  && negb (any_tag_in (tags step) ignore_tags).

(** A property of the world that a step function keeps, and a step
    whose function keeps it. *)
Definition preserves (P : World -> Prop) (b : behaviour) : Prop :=
  forall arg kwargs w, P w -> P (snd (b arg kwargs w)).

Definition step_preserves (P : World -> Prop) (step : PipelineStep) : Prop :=
  match func step with
  | FUser f => preserves P f
  | FMethod r => preserves P (builtin r)
  | _ => True
  end.

End Engine.

Arguments FStr {World} name.
Arguments FUser {World} f.
Arguments FMethod {World} r.
Arguments FOther {World}.
Arguments mkStep {World} _ _ _ _ _.
Arguments func {World} _.
Arguments step_id {World} _.
Arguments tags {World} _.
Arguments func_kwargs {World} _.
Arguments ste_id {World} _.
Arguments mkPipeline {World} _ _ _.
Arguments steps {World} _.
Arguments next_id {World} _.
Arguments self_tags {World} _.
Arguments Pipeline_init {World} _.
Arguments PipelineStep_init {World} _ _ _ _.
Arguments resolve_func {World} codes func.
Arguments add_step {World} codes func tags kwargs _.
Arguments mkState {World} _ _.
Arguments world {World} _.
Arguments calls {World} _.
Arguments run {World} builtin g self run_tags ignore_tags pipeline_steps _.
Arguments run_loop {World} builtin g steps all_warnings _.
Arguments select_steps {World} self run_tags ignore_tags pipeline_steps _.
Arguments step_condition {World} self run_tags ignore_tags step _.
Arguments gather_warnings {World} step result all_warnings _.
Arguments call {World} builtin step_id f arg kwargs _.
Arguments spec_selected {World} run_tags ignore_tags step.
Arguments getattr_tags {World} self _.
Arguments getattr_ste_id {World} step _.
Arguments getattr_meta {World} result _.
Arguments global_log {World} g _.
Arguments registered {World} self f tags kwargs.
Arguments mkRegistration {World} _ _ _.
Arguments reg_func {World} _.
Arguments reg_tags {World} _.
Arguments reg_kwargs {World} _.
Arguments add_steps {World} codes regs self.
Arguments accepted {World} codes r.
Arguments preserves {World} P b.
Arguments step_preserves {World} builtin P step.

(** *** Notions used to state more of the engine's behaviour *)

(** A step function that always returns a [dict] without warnings whose
    status is not [error]. *)
Definition quiet_success {World : Type} (b : behaviour World) : Prop :=
  forall arg kwargs w,
  exists result w',
    b arg kwargs w = (Ok result, w')
    /\ dict_contains (items result) "warnings" = false
    /\ exists status,
         dict_getitem (items result) "status" = Ok status
         /\ eq_str status "error" = false.

(** A step that [run] can call and that succeeds quietly. *)
Definition runs_quietly {World : Type} (step : PipelineStep World) : Prop :=
  is_Some (ste_id step)
  /\ exists f, func step = FUser f /\ quiet_success f.

(** Whether what [run] returned is the [dict] of the error branch. *)
Definition is_RunError (r : res RunResult) : bool :=
  match r with
  | Ok (RunError _ _ _) => true
  | _ => false
  end.

End pipeline.

(* --------------------------------------------------------------------- *)
(** ** Pipelines to run                                                    *)
(* --------------------------------------------------------------------- *)

Module examples.
Import pipeline.

(** The world of the examples: the files on disk, name and content. *)
Definition Files : Type := list (string * string).

(** Step functions in the manner of the tests: they return a [dict] and
    write nothing. *)
Definition returns (result : PyResult) : behaviour Files :=
  fun _ _ w => (Ok result, w).

Definition success_result : PyResult :=
  mkResult [("status", VScalar (SStr "success")); ("sum", VScalar (SInt 7))] None.

Definition error_result : PyResult :=
  mkResult [("status", VScalar (SStr "error"));
            ("error", VScalar (SStr "Division by 0"))] None.

Definition sample_warnings : Table :=
  mkTable [("filename", SStr "img.fits")]
          [[("text", SStr "saturated")]; [("text", SStr "truncated")]].

(** A plain [dict] with a table of warnings ... *)
Definition warning_result : PyResult :=
  mkResult [("status", VScalar (SStr "success"));
            ("warnings", VTable sample_warnings)] None.

(** ... and the same entries on an object that has a [meta]. *)
Definition warning_result_with_meta : PyResult :=
  mkResult (items warning_result) (Some [("filename", VScalar (SStr "img.fits"))]).

(** The runners are not called in the examples. *)
Definition no_runner : Runner -> behaviour Files :=
  fun _ _ _ w => (Raise (NameError "api"), w).

(** [pipe = Pipeline(...); pipe.add_step(f, tags)] for each pair. *)
Definition pipeline_of (l : list (behaviour Files * list tag)) : Pipeline Files :=
  fold_left (fun p ft => snd (add_step [] (FUser (fst ft)) (snd ft) [] p))
            l (Pipeline_init []).

(** The same objects after a caller has given the pipeline a [tags]
    attribute and every step a [ste_id] equal to its [step_id]. *)
Definition with_ste_id (step : PipelineStep Files) : PipelineStep Files :=
  mkStep (func step) (step_id step) (tags step) (func_kwargs step)
         (Some (VScalar (SInt (step_id step)))).

Definition patched (ts : list tag) (p : Pipeline Files) : Pipeline Files :=
  mkPipeline (map with_ste_id (steps p)) (next_id p) (Some ts).

Definition no_globals : Globals := mkGlobals None.
Definition with_log : Globals := mkGlobals (Some (VScalar (SStr "run.log"))).

Definition start (files : Files) : State Files := mkState files [].

End examples.

(* --------------------------------------------------------------------- *)
(** ** More pipelines to run                                               *)
(* --------------------------------------------------------------------- *)

Module more_examples.
Import pipeline examples.

(** A result as the runners return it for a run on frames: the key
    ['warnings'] is there and holds [None]. *)
Definition frames_result : PyResult :=
  mkResult [("status", VScalar (SStr "success")); ("warnings", VScalar SNone)] None.

(** Two steps that succeed, as [add_step] registers them. *)
Definition two_steps : Pipeline Files :=
  pipeline_of [(returns success_result, ["func1"]); (returns success_result, ["func2"])].

(** A step a caller has given a [ste_id]. *)
Definition callable_step (f : behaviour Files) (id : Z) : PipelineStep Files :=
  mkStep (FUser f) id [] [] (Some (VScalar (SInt id))).

End more_examples.

(* --------------------------------------------------------------------- *)
(** ** astromatic_wrapper/pipeline.py: the built-in runners                *)
(* --------------------------------------------------------------------- *)

Module runners.

(** *** Library functions the runners use *)

(** [s.replace(old, new)]: every occurrence of [old], from the left and
    without overlap.  [skip] counts the characters of an occurrence still to
    be passed over. *)
Fixpoint replace_from (old new : string) (skip : nat) (s : string) : string :=
  match s with
  | EmptyString => EmptyString
  | String c rest =>
      match skip with
      | S k => replace_from old new k rest
      | O =>
          if String.prefix old (String c rest)
          then new ++ replace_from old new (String.length old - 1) rest
          else String c (replace_from old new 0 rest)
      end
  end.

Fixpoint put_after_each (new s : string) : string :=
  match s with
  | EmptyString => EmptyString
  | String c rest => String c (new ++ put_after_each new rest)
  end.

Definition replace (s old new : string) : string :=
  match old with
  | EmptyString => new ++ put_after_each new s
  | _ => replace_from old new 0 s
  end.

(** Whether [old] occurs in [s]. *)
Fixpoint occurs (old s : string) : bool :=
  match s with
  | EmptyString => String.prefix old EmptyString
  | String c rest => String.prefix old (String c rest) || occurs old rest
  end.

(** Whether the character [c] is in [s]. *)
Fixpoint has_char (c : ascii) (s : string) : bool :=
  match s with
  | EmptyString => false
  | String d rest => Ascii.eqb d c || has_char c rest
  end.

Fixpoint ends_with_slash (s : string) : bool :=
  match s with
  | EmptyString => false
  | String c EmptyString => Ascii.eqb c "/"
  | String _ rest => ends_with_slash rest
  end.

(** [os.path.join(a, b)] of [posixpath]. *)
Definition os_path_join (a b : string) : string :=
  if String.prefix "/" b then b
  else if (a =? EmptyString)%string || ends_with_slash a then a ++ b
  else a ++ "/" ++ b.

(** ['{0}'.format(v)] *)
Definition format_scalar (v : pipeline.scalar) : string :=
  match v with
  | pipeline.SNone => "None"
  | pipeline.SBool true => "True"
  | pipeline.SBool false => "False"
  | pipeline.SInt z => pretty z
  | pipeline.SStr s => s
  end.

(** *** The objects the runners work on *)

(** A [dict] from names to names: [files], [self.build_paths]. *)
Definition names : Type := list (string * string).

Definition names_get (d : names) (key : string) : option string :=
  snd <$> List.find (fun kv => (fst kv =? key)%string) d.

Definition names_has (d : names) (key : string) : bool :=
  existsb (fun kv => (fst kv =? key)%string) d.

(** [key in config] and [config[key]] on the configuration mapping. *)
Definition config_has (c : api.config) (key : string) : bool :=
  existsb (fun kv => (fst kv =? key)%string) c.

Definition config_get (c : api.config) (key : string) : option api.value :=
  snd <$> List.find (fun kv => (fst kv =? key)%string) c.

(** [api_kwargs]: the keyword arguments for [api.Astromatic].  The runners
    look at four of them; the others are handed on as they are.  The
    mapping under ['config'] keeps the order of insertion, as the ordered
    mapping of the tests does. *)
Record ApiKwargs : Type := mkApiKwargs {
  code : option string;
  cmd : option string;
  temp_path : option string;
  config : option api.config;
  others : names
}.

(** The [dict] a default [api_kwargs={}] starts as. *)
Definition empty_kwargs : ApiKwargs := mkApiKwargs None None None None [].

(** What the runners read of [self]. *)
Record RunnerSelf : Type := mkRunnerSelf {
  self_temp_path : string;
  build_paths : names
}.

(** The module's global scope, as far as the runners read it: the
    [log_path] of the object named [pipeline], when the name is defined.
    The module does not define it. *)
Record Scope : Type := mkScope { pipeline_log_path : option string }.

(** What is asked of the [Astromatic] object. *)
Inductive target : Type :=
| OneFile (name : string)
| FileList (names : list string).

Inductive api_call : Type :=
| Run (t : target)
| RunFrames (t : target) (code : string) (frames : list Z) (flag : bool).

Section Runners.
Variable World : Type.

(** A runner acts on the [api_kwargs] object it was given (its default one
    when the caller gave none) and on the world. *)
Record RunnerState : Type := mkRunnerState {
  kwargs : ApiKwargs;
  outside : World
}.

(** the construction of [api.Astromatic] from [api_kwargs], and the methods [run] and [run_frames]
    of the object; the module [api] is not part of the sources. *)
Variable Astromatic_init : M RunnerState unit.
Variable Astromatic_call : api_call -> M RunnerState pipeline.PyResult.

Definition update (f : ApiKwargs -> ApiKwargs) : M RunnerState unit :=
  fun st => (Ok tt, mkRunnerState (f (kwargs st)) (outside st)).

Definition current_config : M RunnerState api.config :=
  fun st => (Ok (default [] (config (kwargs st))), st).

(** [api_kwargs['config'][key] = value] *)
Definition set_config (key : string) (v : api.value) : M RunnerState unit :=
  update (fun k => mkApiKwargs (code k) (cmd k) (temp_path k)
                     (Some (api.config_set (default [] (config k)) key v))
                     (others k)).

(** [if key not in api_kwargs['config']: api_kwargs['config'][key] = value],
    the value being computed only when needed. *)
Definition config_default (key : string) (v : M RunnerState api.value)
  : M RunnerState unit :=
  c <- current_config ;;
  if config_has c key then ret tt
  else (x <- v ;; set_config key x).

(** The four statements every runner starts with:
    [code], [cmd], [temp_path] and [config] get a value if they have none. *)
Definition common_defaults (self : RunnerSelf) (code_name build_key : string)
  : M RunnerState unit :=
  update (fun k =>
            mkApiKwargs
              (Some (default code_name (code k)))
              (match cmd k with
               | Some c => Some c
               | None => names_get (build_paths self) build_key
               end)
              (Some (default (self_temp_path self) (temp_path k)))
              (Some (default [] (config k)))
              (others k)).

Definition files_getitem (files : names) (key : string) : M RunnerState string :=
  match names_get files key with
  | Some v => ret v
  | None => raise (KeyError key)
  end.

(** [os.path.join(pipeline.log_path, '{0}<suffix>'.format(step_id))] *)
Definition xml_name (scope : Scope) (step_id : pipeline.scalar) (suffix : string)
  : M RunnerState api.value :=
  match pipeline_log_path scope with
  | Some log_path =>
      ret (api.VStr (os_path_join log_path (format_scalar step_id ++ suffix)))
  | None => raise (NameError "pipeline")
  end.

(** [run_sex], up to the construction of the [Astromatic] object. *)
Definition prepare_sex (self : RunnerSelf) (scope : Scope) (step_id : pipeline.scalar)
    (files : names) : M RunnerState unit :=
  common_defaults self "SExtractor" "SExtractor" ;;;
  config_default "CATALOG_NAME"
    (image <- files_getitem files "image" ;;
     ret (api.VStr (replace image ".fits" ".cat"))) ;;;
  (c <- current_config ;;
   if negb (config_has c "FLAG_IMAGE") && names_has files "dqmask"
   then (v <- files_getitem files "dqmask" ;; set_config "FLAG_IMAGE" (api.VStr v))
   else ret tt) ;;;
  (c <- current_config ;;
   if negb (config_has c "WEIGHT_IMAGE") && names_has files "wtmap"
   then (v <- files_getitem files "wtmap" ;; set_config "WEIGHT_IMAGE" (api.VStr v))
   else ret tt) ;;;
  config_default "WRITE_XML" (ret (api.VStr "Y")) ;;;
  config_default "XML_NAME" (xml_name scope step_id ".sex.log.xml").

(** [run_sex(self, step_id, files, api_kwargs={}, frames=None)] *)
Definition run_sex (self : RunnerSelf) (scope : Scope) (step_id : pipeline.scalar)
    (files : names) (frames : option (list Z)) : M RunnerState pipeline.PyResult :=
  prepare_sex self scope step_id files ;;;
  Astromatic_init ;;;
  image <- files_getitem files "image" ;;
  match frames with
  | None => Astromatic_call (Run (OneFile image))
  | Some frames => Astromatic_call (RunFrames (OneFile image) "SExtractor" frames false)
  end.

(** [run_scamp], up to the construction of the [Astromatic] object. *)
Definition prepare_scamp (self : RunnerSelf) (scope : Scope) (step_id : pipeline.scalar)
    (save_catalog : option string) : M RunnerState unit :=
  common_defaults self "SCAMP" "SCAMP" ;;;
  match save_catalog with
  | Some path =>
      set_config "SAVE_REFCATALOG" (api.VStr "Y") ;;;
      set_config "REFOUT_CATPATH" (api.VStr path)
  | None => ret tt
  end ;;;
  config_default "WRITE_XML" (ret (api.VStr "Y")) ;;;
  config_default "XML_NAME" (xml_name scope step_id ".scamp.log.xml").

(** [run_scamp(self, step_id, catalogs, api_kwargs={}, save_catalog=None)] *)
Definition run_scamp (self : RunnerSelf) (scope : Scope) (step_id : pipeline.scalar)
    (catalogs : list string) (save_catalog : option string)
  : M RunnerState pipeline.PyResult :=
  prepare_scamp self scope step_id save_catalog ;;;
  Astromatic_init ;;;
  Astromatic_call (Run (FileList catalogs)).

(** [run_psfex(self, step_id, catalogs, api_kwargs={})] *)
Definition prepare_psfex (self : RunnerSelf) (scope : Scope) (step_id : pipeline.scalar)
  : M RunnerState unit :=
  common_defaults self "PSFEx" "PSFEx" ;;;
  config_default "WRITE_XML" (ret (api.VStr "Y")) ;;;
  config_default "XML_NAME" (xml_name scope step_id ".psfex.log.xml").

Definition run_psfex (self : RunnerSelf) (scope : Scope) (step_id : pipeline.scalar)
    (catalogs : target) : M RunnerState pipeline.PyResult :=
  prepare_psfex self scope step_id ;;;
  Astromatic_init ;;;
  Astromatic_call (Run catalogs).

(** [run_swarp], up to the construction of the [Astromatic] object. *)
Definition prepare_swarp (self : RunnerSelf) (scope : Scope) (step_id : pipeline.scalar)
  : M RunnerState unit :=
  common_defaults self "SWarp" "SWARP" ;;;
  config_default "RESAMPLE_DIR"
    (fun st => match temp_path (kwargs st) with
               | Some t => (Ok (api.VStr t), st)
               | None => (Raise (KeyError "temp_path"), st)
               end) ;;;
  (c <- current_config ;;
   if config_has c "IMAGEOUT_NAME" then ret tt
   else raise (PipelineError "Must include a name for the new stacked image")) ;;;
  config_default "WRITE_XML" (ret (api.VStr "Y")) ;;;
  config_default "XML_NAME" (xml_name scope step_id ".scamp.log.xml").

(** [run_swarp(self, step_id, filenames, api_kwargs, frames=None)].  With
    [frames] given, the call reads [files], a name the function does not
    have. *)
Definition run_swarp (self : RunnerSelf) (scope : Scope) (step_id : pipeline.scalar)
    (filenames : list string) (frames : option (list Z))
  : M RunnerState pipeline.PyResult :=
  prepare_swarp self scope step_id ;;;
  Astromatic_init ;;;
  match frames with
  | None => Astromatic_call (Run (FileList filenames))
  | Some frames =>
      image <- (raise (NameError "files") : M RunnerState string) ;;
      Astromatic_call (RunFrames (OneFile image) "SWarp" frames false)
  end.

End Runners.

Arguments mkRunnerState {World} _ _.
Arguments kwargs {World} _.
Arguments outside {World} _.
Arguments prepare_sex {World} self scope step_id files _.
Arguments prepare_scamp {World} self scope step_id save_catalog _.
Arguments prepare_psfex {World} self scope step_id _.
Arguments prepare_swarp {World} self scope step_id _.
Arguments run_sex {World} Astromatic_init Astromatic_call self scope step_id files frames _.
Arguments run_scamp {World} Astromatic_init Astromatic_call self scope step_id
  catalogs save_catalog _.
Arguments run_psfex {World} Astromatic_init Astromatic_call self scope step_id catalogs _.
Arguments run_swarp {World} Astromatic_init Astromatic_call self scope step_id
  filenames frames _.

(** *** The defaults of [run_sex], as a list

    The entries [run_sex] adds to a configuration that has none of them, in
    the order in which it adds them. *)
Definition sex_defaults (log_path : string) (step_id : pipeline.scalar)
    (image : string) (files : names) : api.config :=
  ([("CATALOG_NAME", api.VStr (replace image ".fits" ".cat"))]
   ++ match names_get files "dqmask" with
      | Some v => [("FLAG_IMAGE", api.VStr v)]
      | None => []
      end
   ++ match names_get files "wtmap" with
      | Some v => [("WEIGHT_IMAGE", api.VStr v)]
      | None => []
      end
   ++ [("WRITE_XML", api.VStr "Y");
       ("XML_NAME",
        api.VStr (os_path_join log_path
                    (format_scalar step_id ++ ".sex.log.xml")%string))])%list.

(** The entries of [defaults] whose key [c] does not have. *)
Definition missing_from (c defaults : api.config) : api.config :=
  List.filter (fun kv => negb (config_has c (fst kv))) defaults.

(** An action of a runner that only adds: it leaves the world and the other
    keyword arguments alone, and the configuration after it is the one
    before it followed by new entries. *)
Definition only_adds {World A : Type} (m : M (RunnerState World) A) : Prop :=
  forall st,
    outside (snd (m st)) = outside st
    /\ others (kwargs (snd (m st))) = others (kwargs st)
    /\ exists added,
         default [] (config (kwargs (snd (m st))))
         = (default [] (config (kwargs st)) ++ added)%list.

(** The inputs of [test_run_sex]. *)
Definition test_files : names :=
  [("image", "img.fits"); ("dqmask", "img.dqmask.fits"); ("wtmap", "img.wtmap.fits")].

Definition test_kwargs : ApiKwargs :=
  mkApiKwargs None None None (Some [("PARAMETERS_NAME", api.VStr "default.path")]) [].

Definition test_self : RunnerSelf := mkRunnerSelf "temp" [].

End runners.


(* ===================================================================== *)
(** * Part II: properties                                                  *)
(* ===================================================================== *)

(** ** utils.py *)

Section UtilsFacts.
Import utils.

Lemma startswith_true (p : string) :
  startswith "true" p = true <-> In p prefixes_of_true.
Proof.
  unfold startswith, prefixes_of_true. split.
  - destruct p as [|a1 [|a2 [|a3 [|a4 [|a5 p]]]]]; simpl;
      repeat match goal with
             | |- context [ascii_dec ?a ?b] => destruct (ascii_dec a b); subst
             end; intros; try discriminate; tauto.
  - simpl. intros [<-|[<-|[<-|[<-|[<-|[]]]]]]; reflexivity.
Qed.

Lemma startswith_yes (p : string) :
  startswith "yes" p = true <-> In p prefixes_of_yes.
Proof.
  unfold startswith, prefixes_of_yes. split.
  - destruct p as [|a1 [|a2 [|a3 [|a4 p]]]]; simpl;
      repeat match goal with
             | |- context [ascii_dec ?a ?b] => destruct (ascii_dec a b); subst
             end; intros; try discriminate; tauto.
  - simpl. intros [<-|[<-|[<-|[<-|[]]]]]; reflexivity.
Qed.

Lemma startswith_false (p : string) :
  startswith "false" p = true <-> In p prefixes_of_false.
Proof.
  unfold startswith, prefixes_of_false. split.
  - destruct p as [|a1 [|a2 [|a3 [|a4 [|a5 [|a6 p]]]]]]; simpl;
      repeat match goal with
             | |- context [ascii_dec ?a ?b] => destruct (ascii_dec a b); subst
             end; intros; try discriminate; tauto.
  - simpl. intros [<-|[<-|[<-|[<-|[<-|[<-|[]]]]]]]; reflexivity.
Qed.

Lemma startswith_no (p : string) :
  startswith "no" p = true <-> In p prefixes_of_no.
Proof.
  unfold startswith, prefixes_of_no. split.
  - destruct p as [|a1 [|a2 [|a3 p]]]; simpl;
      repeat match goal with
             | |- context [ascii_dec ?a ?b] => destruct (ascii_dec a b); subst
             end; intros; try discriminate; tauto.
  - simpl. intros [<-|[<-|[<-|[]]]]; reflexivity.
Qed.

Lemma lower_empty (s : string) : lower s = EmptyString -> s = EmptyString.
Proof. destruct s; simpl; [reflexivity | discriminate]. Qed.

(** A string that is not empty cannot start both an affirmative and a
    negative word: they differ in their first letter. *)
Lemma affirmative_or_negative (p : string) :
  p <> EmptyString ->
  startswith "false" p || startswith "no" p = true ->
  startswith "true" p || startswith "yes" p = false.
Proof.
  intros Hne H.
  apply orb_true_iff in H.
  apply orb_false_iff.
  rewrite <- !not_true_iff_false, startswith_true, startswith_yes.
  rewrite startswith_false, startswith_no in H.
  unfold prefixes_of_true, prefixes_of_yes, prefixes_of_false, prefixes_of_no in *.
  simpl in *.
  split; intros Ht;
    repeat match goal with
           | H : _ \/ _ |- _ => destruct H
           | H : False |- _ => destruct H
           end; subst; try congruence.
Qed.

(** C9.  [str_2_bool s] is [True] when the lower-cased [s] starts "true"
    or "yes", [False] when it starts "false" or "no" (the empty string,
    which starts every word, is taken by the first test and gives [True]),
    and raises [AstromaticError] with the message naming [s] for every
    other string.  The last lines give the answer on the empty string and
    on the four strings of the test. *)
Theorem str_2_bool_by_prefix (s : string) :
  (startswith "true" (lower s) || startswith "yes" (lower s) = true ->
     str_2_bool s = Ok true)
  /\ (s <> EmptyString ->
      startswith "false" (lower s) || startswith "no" (lower s) = true ->
      str_2_bool s = Ok false)
  /\ (startswith "true" (lower s) || startswith "yes" (lower s) = false ->
      startswith "false" (lower s) || startswith "no" (lower s) = false ->
      str_2_bool s = Raise (AstromaticError
        ("'" ++ s ++
         "' did not match a boolean expression  (true/false, yes/no, t/f, y/n)")))
  /\ (str_2_bool s = Ok true <->
      In (lower s) (prefixes_of_true ++ prefixes_of_yes))
  /\ (str_2_bool s = Ok false <->
      lower s <> EmptyString /\ In (lower s) (prefixes_of_false ++ prefixes_of_no))
  /\ str_2_bool EmptyString = Ok true
  /\ str_2_bool "YeS" = Ok true /\ str_2_bool "TrUe" = Ok true
  /\ str_2_bool "nO" = Ok false /\ str_2_bool "fALse" = Ok false.
Proof.
  assert (Hneg : s <> EmptyString ->
                 startswith "false" (lower s) || startswith "no" (lower s) = true ->
                 startswith "true" (lower s) || startswith "yes" (lower s) = false).
  { intros Hne. apply affirmative_or_negative.
    intros E. apply Hne, lower_empty, E. }
  unfold str_2_bool.
  split; [intros ->; reflexivity|].
  split; [intros Hne H; rewrite (Hneg Hne H), H; reflexivity|].
  split; [intros -> ->; reflexivity|].
  split.
  { split.
    - destruct (startswith "true" (lower s) || startswith "yes" (lower s)) eqn:E.
      + intros _. apply orb_true_iff in E. apply in_or_app.
        rewrite <- startswith_true, <- startswith_yes. exact E.
      + destruct (startswith "false" (lower s) || startswith "no" (lower s));
          discriminate.
    - intros H. apply in_app_or in H.
      rewrite <- startswith_true, <- startswith_yes, <- orb_true_iff in H.
      rewrite H. reflexivity. }
  split.
  { split.
    - destruct (startswith "true" (lower s) || startswith "yes" (lower s)) eqn:E;
        [discriminate|].
      destruct (startswith "false" (lower s) || startswith "no" (lower s)) eqn:F;
        [|discriminate].
      intros _. split.
      + intros El. rewrite El in E. discriminate E.
      + apply in_or_app.
        rewrite <- startswith_false, <- startswith_no, <- orb_true_iff. exact F.
    - intros [Hne H]. apply in_app_or in H.
      rewrite <- startswith_false, <- startswith_no, <- orb_true_iff in H.
      rewrite (affirmative_or_negative _ Hne H), H. reflexivity. }
  repeat split.
Qed.

End UtilsFacts.

Section CheckPathFacts.
Import utils.


Section AnyOS.
Context {FS : Type} `{OS FS}.

Lemma get_bool_answer (prompt line : string) (rest out : list string) (f : FS)
    (b : bool) :
  str_2_bool line = Ok b ->
  get_bool prompt (mkWorld (line :: rest) out f)
  = (Ok b, mkWorld rest (out ++ [prompt]) f).
Proof. intros E. unfold get_bool. simpl. rewrite E. reflexivity. Qed.

(** An answer that is no boolean word does not lead to a second
    question: the handler fails on its unbound local. *)
Lemma get_bool_no_retry (prompt line msg : string) (rest out : list string) (f : FS) :
  str_2_bool line = Raise (AstromaticError msg) ->
  get_bool prompt (mkWorld (line :: rest) out f)
  = (Raise (UnboundLocalError "bool_str"), mkWorld rest (out ++ [prompt]) f).
Proof. intros E. unfold get_bool. simpl. rewrite E. reflexivity. Qed.

(** [auto_create] does not enter the result. *)
Lemma check_path_ignores_auto_create (path : string) (a b : bool) (w : World FS) :
  check_path path a w = check_path path b w.
Proof. reflexivity. Qed.


End AnyOS.

End CheckPathFacts.

(** ** ldac.py *)

Section LdacFacts.
Import ldac.

Lemma header_get_set (h : Header) (key value : string) :
  header_get (header_set h key value) key = Some value.
Proof.
  unfold header_get.
  induction h as [|[k v] h IH]; simpl.
  - rewrite String.eqb_refl. reflexivity.
  - destruct (k =? key)%string eqn:E; simpl.
    + rewrite String.eqb_refl. reflexivity.
    + rewrite E. exact IH.
Qed.

Section AnyAstropy.
Variable primary_header : Header.
Variable bintable_header : Table -> Header.
Variable Table_write : Table -> res Table.
Variable from_fits : Table -> Table.
Variable writable : string -> bool.

(** The list [convert_table_to_ldac] builds for a table that can be
    written: the primary unit, the header echo, and at index 2 the objects,
    holding the records that were written. *)
Lemma convert_table_to_ldac_layout (tbl stored : Table) :
  Table_write tbl = Ok stored ->
  exists hdu0 tbl1 tbl2,
    convert_table_to_ldac primary_header bintable_header Table_write tbl
    = Ok [hdu0; tbl1; tbl2]
    /\ kind hdu0 = PrimaryHDU
    /\ kind tbl1 = BinTableHDU
    /\ header_get (header tbl1) "EXTNAME" = Some "LDAC_IMHEAD"
    /\ kind tbl2 = BinTableHDU
    /\ header_get (header tbl2) "EXTNAME" = Some "LDAC_OBJECTS"
    /\ data tbl2 = Some stored.
Proof.
  intros Hw. unfold convert_table_to_ldac, table_to_fits. rewrite Hw. simpl.
  eexists _, _, _. split; [reflexivity|]. simpl.
  repeat split; apply header_get_set.
Qed.

(** A positive frame [n] is read from unit [2 n]. *)
Lemma get_table_from_ldac_doubles (filename : string) (n : Z) (disk : files) :
  0 < n ->
  get_table_from_ldac from_fits filename n disk
  = Table_read from_fits filename (2 * n) disk.
Proof.
  intros Hn. unfold get_table_from_ldac.
  destruct (0 <? n) eqn:E; [|apply Z.ltb_ge in E; lia].
  f_equal. lia.
Qed.

(** Unit 2 of a file of a primary unit and two tables is read as a table. *)
Lemma Table_read_objects (hdu0 tbl1 tbl2 : HDU) (filename : string) (disk : files) :
  kind hdu0 = PrimaryHDU -> kind tbl1 = BinTableHDU -> kind tbl2 = BinTableHDU ->
  disk !! filename = Some [hdu0; tbl1; tbl2] ->
  Table_read from_fits filename 2 disk = (Ok (from_fits (records tbl2)), disk).
Proof.
  intros K0 K1 K2 Hf. unfold Table_read, files, HDUList in *. rewrite Hf.
  unfold List.filter, is_table. rewrite K0, K1, K2. simpl. rewrite K2. reflexivity.
Qed.

(** What frame 1 holds after a save that completes: what [Table.read]
    makes of the records that were written. *)
Lemma save_then_get_frame_1 (tbl stored : Table) (filename : string)
    (kwargs : writeto_kwargs) (disk disk' : files) :
  Table_write tbl = Ok stored ->
  save_table_as_ldac primary_header bintable_header Table_write writable
    tbl filename kwargs disk = (Ok tt, disk') ->
  get_table_from_ldac from_fits filename 1 disk' = (Ok (from_fits stored), disk').
Proof.
  intros Hw Hs.
  destruct (convert_table_to_ldac_layout tbl stored Hw)
    as (hdu0 & tbl1 & tbl2 & Hc & K0 & K1 & _ & K2 & _ & D2).
  unfold save_table_as_ldac, bind, lift in Hs. rewrite Hc in Hs.
  assert (Hf : disk' !! filename = Some [hdu0; tbl1; tbl2]).
  { unfold writeto, files in *.
    destruct (disk !! filename); [destruct (clobber kwargs); [|discriminate Hs]|];
      (destruct (writable filename); [|discriminate Hs]);
      injection Hs as <-; apply lookup_insert_eq. }
  rewrite get_table_from_ldac_doubles by lia. change (2 * 1) with 2.
  rewrite (Table_read_objects hdu0 tbl1 tbl2 filename disk' K0 K1 K2 Hf).
  unfold records. rewrite D2. reflexivity.
Qed.

(** C10, amended.  For a table that FITS storage gives back as it is
    ([Table.read] of the records [tbl.write] stores is the table), under a
    name that is not on disk yet, or with the overwrite keyword passed on to
    [writeto], in a place where the file can be written:
    [save_table_as_ldac] writes the list of three units (primary,
    LDAC_IMHEAD, LDAC_OBJECTS with the records at index 2) and
    [get_table_from_ldac(filename, 1)] then returns the table that was
    saved; in general a positive frame [n] is read from unit [2 n]. *)
Theorem ldac_round_trip (tbl stored : Table) (filename : string)
    (kwargs : writeto_kwargs) (disk : files) :
  Table_write tbl = Ok stored ->
  from_fits stored = tbl ->
  disk !! filename = None \/ clobber kwargs = true ->
  writable filename = true ->
  (exists hdu0 tbl1 tbl2,
     convert_table_to_ldac primary_header bintable_header Table_write tbl
     = Ok [hdu0; tbl1; tbl2]
     /\ kind hdu0 = PrimaryHDU
     /\ header_get (header tbl1) "EXTNAME" = Some "LDAC_IMHEAD"
     /\ header_get (header tbl2) "EXTNAME" = Some "LDAC_OBJECTS"
     /\ data tbl2 = Some stored
     /\ save_table_as_ldac primary_header bintable_header Table_write writable
          tbl filename kwargs disk
        = (Ok tt, <[filename := [hdu0; tbl1; tbl2]]> disk)
     /\ get_table_from_ldac from_fits filename 1 (<[filename := [hdu0; tbl1; tbl2]]> disk)
        = (Ok tbl, <[filename := [hdu0; tbl1; tbl2]]> disk))
  /\ (forall (n : Z) (d : files),
        0 < n ->
        get_table_from_ldac from_fits filename n d
        = Table_read from_fits filename (2 * n) d).
Proof.
  intros Hw Hback Hfree Hcan. split; [|intros n d; apply get_table_from_ldac_doubles].
  destruct (convert_table_to_ldac_layout tbl stored Hw)
    as (hdu0 & tbl1 & tbl2 & Hc & K0 & K1 & E1 & K2 & E2 & D2).
  exists hdu0, tbl1, tbl2.
  assert (Hs : save_table_as_ldac primary_header bintable_header Table_write writable
                 tbl filename kwargs disk
               = (Ok tt, <[filename := [hdu0; tbl1; tbl2]]> disk)).
  { unfold save_table_as_ldac, bind, lift. rewrite Hc. unfold writeto. rewrite Hcan.
    destruct Hfree as [-> | ->]; [reflexivity|].
    destruct (disk !! filename); reflexivity. }
  repeat (split; [assumption|]).
  rewrite (save_then_get_frame_1 tbl stored filename kwargs disk _ Hw Hs), Hback.
  reflexivity.
Qed.

End AnyAstropy.

(** The amended statement at work: a table of numbers, a fresh file name on
    an empty disk. *)
Lemma ldac_round_trip_fresh_file :
  (sample_write sample_table = Ok sample_table
   /\ sample_read sample_table = sample_table
   /\ ((∅ : files) !! "temp.ldac.fits" = None \/ clobber no_kwargs = true)
   /\ sample_writable "temp.ldac.fits" = true)
  /\ exists hdu0 tbl1 tbl2,
       save_table_as_ldac sample_primary sample_bintable_header sample_write
         sample_writable sample_table "temp.ldac.fits" no_kwargs ∅
       = (Ok tt, <["temp.ldac.fits" := [hdu0; tbl1; tbl2]]> ∅)
       /\ get_table_from_ldac sample_read "temp.ldac.fits" 1
            (<["temp.ldac.fits" := [hdu0; tbl1; tbl2]]> ∅)
          = (Ok sample_table, <["temp.ldac.fits" := [hdu0; tbl1; tbl2]]> ∅).
Proof.
  assert (Hfree : (∅ : files) !! "temp.ldac.fits" = None \/ clobber no_kwargs = true)
    by (left; reflexivity).
  split; [repeat split; exact Hfree|].
  destruct (ldac_round_trip sample_primary sample_bintable_header sample_write
              sample_read sample_writable sample_table sample_table
              "temp.ldac.fits" no_kwargs ∅ eq_refl eq_refl Hfree eq_refl)
    as [(hdu0 & tbl1 & tbl2 & _ & _ & _ & _ & _ & Hs & Hg) _].
  exists hdu0, tbl1, tbl2. split; assumption.
Defined.

(** C10, as stated, fails, in three ways.  Saving under a name that is on
    disk, without the overwrite keyword, raises and leaves the old file:
    frame 1 then gives the old table.  A table with a string that ends in
    blanks, saved under a fresh name, is read back without them.  And a
    name in a directory that is not there cannot be saved under. *)
Lemma ldac_round_trip_not_for_every_table_and_file :
  (save_table_as_ldac sample_primary sample_bintable_header sample_write
     sample_writable sample_table "cat.fits" no_kwargs disk_with_catalog
   = (Raise (IOError "cat.fits"), disk_with_catalog)
   /\ fst (get_table_from_ldac sample_read "cat.fits" 1 disk_with_catalog)
      = Ok other_table
   /\ other_table <> sample_table)
  /\ (exists disk',
        save_table_as_ldac sample_primary sample_bintable_header sample_write
          sample_writable padded_table "temp.ldac.fits" no_kwargs ∅
        = (Ok tt, disk')
        /\ fst (get_table_from_ldac sample_read "temp.ldac.fits" 1 disk')
           = Ok (mkTable ["NAME"] [[CStr "ab"]])
        /\ mkTable ["NAME"] [[CStr "ab"]] <> padded_table)
  /\ save_table_as_ldac sample_primary sample_bintable_header sample_write
       sample_writable sample_table "nodir/temp.ldac.fits" no_kwargs ∅
     = (Raise (IOError "nodir/temp.ldac.fits"), ∅)
  /\ ~ round_trip_for_every_file.
Proof.
  assert (Hs : save_table_as_ldac sample_primary sample_bintable_header sample_write
                 sample_writable sample_table "cat.fits" no_kwargs disk_with_catalog
               = (Raise (IOError "cat.fits"), disk_with_catalog)).
  { unfold save_table_as_ldac, bind, lift, writeto, disk_with_catalog. simpl.
    unfold files. rewrite lookup_singleton_eq. reflexivity. }
  split; [|split; [|split]].
  - split; [exact Hs|]. split.
    + unfold get_table_from_ldac, Table_read, disk_with_catalog, files.
      rewrite lookup_singleton_eq. reflexivity.
    + discriminate.
  - assert (Hp : exists disk',
               save_table_as_ldac sample_primary sample_bintable_header sample_write
                 sample_writable padded_table "temp.ldac.fits" no_kwargs ∅
               = (Ok tt, disk'))
      by (eexists; reflexivity).
    destruct Hp as [disk' Hp]. exists disk'.
    split; [exact Hp|]. split; [|discriminate].
    rewrite (save_then_get_frame_1 sample_primary sample_bintable_header sample_write
               sample_read sample_writable padded_table padded_table
               "temp.ldac.fits" no_kwargs ∅ disk' eq_refl Hp).
    reflexivity.
  - reflexivity.
  - intros R.
    destruct (R sample_table "cat.fits" disk_with_catalog) as (d & E & _).
    rewrite Hs in E. discriminate E.
Qed.

End LdacFacts.

(** ** The command builder *)

Section ApiFacts.
Import api.

Lemma flat_map_override_lookup (cfg : config) (i : nat) (key : string) (v : value) :
  cfg !! i = Some (key, v) ->
  flat_map override cfg !! (2 * i)%nat = Some ("-" ++ key)
  /\ flat_map override cfg !! (2 * i + 1)%nat = Some (token_of_value v).
Proof.
  revert i. induction cfg as [|kv cfg IH]; intros i Hi; [discriminate|].
  destruct i as [|i]; simpl in *.
  - injection Hi as ->. split; reflexivity.
  - replace (i + S (i + 0))%nat with (S (2 * i)) by lia.
    simpl. replace (i + (i + 0) + 1)%nat with (2 * i + 1)%nat by lia.
    apply IH, Hi.
Qed.

Lemma bool_token_not_python (b : bool) :
  token_of_value (VBool b) <> python_bool_token b
  /\ (token_of_value (VBool b) = "Y" \/ token_of_value (VBool b) = "N").
Proof. destruct b; split; simpl; try discriminate; auto. Qed.

(** C6.  The command of the example is the one expected, token for token;
    for every tool, file list, configuration file and mapping, the tokens
    are the tool, the files, [-c] and the file when one is given, then for
    the [i]-th entry of the mapping the tokens [-KEY] and its value, in the
    order of the mapping, a boolean as [Y] or [N] and never as Python
    prints it. *)
Theorem build_cmd_in_mapping_order :
  build_cmd "sex" ["test.fits"] (Some "cfg") sex_config
  = "sex test.fits -c cfg -CATALOG_NAME test.fits -CATALOG_TYPE FITS_LDAC -PARAMETERS_NAME default.path -FILTER N"
  /\ (forall (tool : string) (files : list string) (config_file : option string)
             (cfg : config),
        let head := tool :: files
                      ++ match config_file with Some c => ["-c"; c] | None => [] end in
        build_cmd_tokens tool files config_file cfg = (head ++ flat_map override cfg)%list
        /\ length (build_cmd_tokens tool files config_file cfg)
           = (length head + 2 * length cfg)%nat
        /\ forall (i : nat) (key : string) (v : value),
             cfg !! i = Some (key, v) ->
             build_cmd_tokens tool files config_file cfg !! (length head + 2 * i)%nat
             = Some ("-" ++ key)
             /\ build_cmd_tokens tool files config_file cfg !! (length head + 2 * i + 1)%nat
                = Some (token_of_value v)
             /\ forall b : bool, v = VBool b ->
                  token_of_value v = (if b then "Y" else "N")
                  /\ token_of_value v <> python_bool_token b).
Proof.
  split; [vm_compute; reflexivity|].
  intros tool files config_file cfg head.
  assert (E : build_cmd_tokens tool files config_file cfg = (head ++ flat_map override cfg)%list).
  { unfold build_cmd_tokens, head. simpl. rewrite <- app_assoc. reflexivity. }
  split; [exact E|]. split.
  - rewrite E, length_app. f_equal.
    clear. induction cfg as [|kv cfg IH]; simpl; [reflexivity|]. rewrite IH. lia.
  - intros i key v Hi.
    destruct (flat_map_override_lookup cfg i key v Hi) as [H1 H2].
    rewrite E. split; [|split].
    + rewrite lookup_app_r by lia.
      replace (length head + 2 * i - length head)%nat with (2 * i)%nat by lia.
      exact H1.
    + rewrite lookup_app_r by lia.
      replace (length head + 2 * i + 1 - length head)%nat with (2 * i + 1)%nat by lia.
      exact H2.
    + intros b ->. split; [destruct b; reflexivity | apply bool_token_not_python].
Qed.

End ApiFacts.

(** ** pipeline.py: the step registry *)

Section RegistryFacts.
Import pipeline.
Context {World : Type}.
Variable codes : list string.

(** C5.  A callable (a function of the caller, or a bound method) is
    registered as it is, and [SExtractor], [SCAMP] and [PSFEx], when
    [api.codes] has them, as [run_sex], [run_scamp] and [run_psfex]: the
    step appended holds that function, the tags and the keyword arguments
    of the call and the id the counter stood at.  A [str] that is no key of
    [api.codes] raises [PipelineError] and leaves the pipeline as it was.
    The fourth tool cannot be registered under its name: [run_swarp] names
    it [SWarp] when it asks [api.Astromatic] for it, and [add_step]
    compares with [SWARP].  So [SWarp] raises [PipelineError] whatever
    [api.codes] holds, and a step gets [run_swarp] only when the method
    itself is passed or [api.codes] has a key [SWARP]. *)
Theorem add_step_misses_SWarp (self : Pipeline World)
    (tags : list tag) (kwargs : dict) :
  (forall f : behaviour World,
     add_step codes (FUser f) tags kwargs self
     = (Ok tt,
        mkPipeline (steps self ++ [mkStep (FUser f) (next_id self) tags kwargs None])
                   (next_id self + 1) (self_tags self)))
  /\ (forall r : Runner,
        add_step codes (FMethod r) tags kwargs self
        = (Ok tt,
           mkPipeline (steps self ++ [mkStep (FMethod r) (next_id self) tags kwargs None])
                      (next_id self + 1) (self_tags self)))
  /\ (forall (name : string) (r : Runner),
        In (name, r) [("SExtractor", run_sex); ("SCAMP", run_scamp);
                      ("PSFEx", run_psfex); ("SWARP", run_swarp)] ->
        name ∈ codes ->
        add_step codes (FStr name) tags kwargs self
        = (Ok tt,
           mkPipeline (steps self ++ [mkStep (FMethod r) (next_id self) tags kwargs None])
                      (next_id self + 1) (self_tags self)))
  /\ (forall name : string,
        name ∉ codes ->
        add_step codes (FStr name) tags kwargs self
        = (Raise (PipelineError not_a_code), self))
  /\ (forall (me : runners.RunnerSelf) (scope : runners.Scope) (id : scalar) (w : World),
        runners.code
          (runners.kwargs
             (snd (runners.prepare_swarp me scope id
                     (runners.mkRunnerState runners.empty_kwargs w))))
        = Some "SWarp")
  /\ add_step codes (FStr "SWarp") tags kwargs self
     = (Raise (PipelineError not_a_code), self)
  /\ (forall f : PyFunc World,
        resolve_func codes f = Ok (FMethod run_swarp) ->
        f = FMethod run_swarp \/ (f = FStr "SWARP" /\ "SWARP" ∈ codes)).
Proof.
  split; [reflexivity|]. split; [reflexivity|].
  split; [|split; [|split; [|split]]].
  - intros name r Hin Hc.
    unfold add_step, bind, lift, resolve_func.
    destruct (bool_decide (name ∈ codes)) eqn:E;
      [|apply bool_decide_eq_false in E; contradiction].
    simpl in Hin.
    destruct Hin as [H|[H|[H|[H|[]]]]]; injection H as <- <-; reflexivity.
  - intros name Hno.
    unfold add_step, bind, lift, resolve_func.
    destruct (bool_decide (name ∈ codes)) eqn:E; [|reflexivity].
    apply bool_decide_eq_true in E. contradiction.
  - intros me scope id w. reflexivity.
  - unfold add_step, bind, lift, resolve_func.
    destruct (bool_decide ("SWarp" ∈ codes)); reflexivity.
  - intros f Hf. destruct f as [name|b|r|]; simpl in Hf;
      [|discriminate Hf | left; injection Hf as ->; reflexivity | discriminate Hf].
    right.
    destruct (bool_decide (name ∈ codes)) eqn:E; [|discriminate Hf].
    apply bool_decide_eq_true in E.
    destruct (name =? "SExtractor")%string; [discriminate Hf|].
    destruct (name =? "SCAMP")%string; [discriminate Hf|].
    destruct (name =? "PSFEx")%string; [discriminate Hf|].
    destruct (name =? "SWARP")%string eqn:En; [|discriminate Hf].
    apply String.eqb_eq in En. subst name. split; [reflexivity | exact E].
Qed.

Lemma ids_from_bounds (start : Z) (n : nat) (id : Z) :
  In id (ids_from start n) -> start <= id < start + Z.of_nat n.
Proof.
  revert start. induction n as [|n IH]; intros start; simpl; [tauto|].
  intros [<-|Hin]; [lia|]. apply IH in Hin. lia.
Qed.

Lemma ids_from_sorted (start : Z) (n : nat) :
  StronglySorted Z.lt (ids_from start n).
Proof.
  revert start. induction n as [|n IH]; intros start; simpl; constructor.
  - apply IH.
  - apply List.Forall_forall. intros id Hin. apply ids_from_bounds in Hin. lia.
Qed.

Lemma ids_from_NoDup (start : Z) (n : nat) : List.NoDup (ids_from start n).
Proof.
  revert start. induction n as [|n IH]; intros start; simpl; constructor.
  - intros Hin. apply ids_from_bounds in Hin. lia.
  - apply IH.
Qed.

Lemma add_step_one (r : registration World) (self : Pipeline World) :
  snd (add_step codes (reg_func r) (reg_tags r) (reg_kwargs r) self)
  = match resolve_func codes (reg_func r) with
    | Ok f => registered self f (reg_tags r) (reg_kwargs r)
    | Raise _ => self
    end.
Proof.
  unfold add_step, bind, lift.
  destruct (resolve_func codes (reg_func r)); reflexivity.
Qed.

Lemma add_steps_ids (regs : list (registration World)) (self : Pipeline World) :
  exists new : list (PipelineStep World),
    steps (add_steps codes regs self) = (steps self ++ new)%list
    /\ length new = length (List.filter (accepted codes) regs)
    /\ map step_id new = ids_from (next_id self) (length new)
    /\ next_id (add_steps codes regs self) = next_id self + Z.of_nat (length new)
    /\ self_tags (add_steps codes regs self) = self_tags self.
Proof.
  revert self. induction regs as [|r regs IH]; intros self; simpl.
  - exists []. rewrite app_nil_r. repeat split. simpl. lia.
  - rewrite add_step_one. unfold accepted at 1.
    destruct (resolve_func codes (reg_func r)) as [f|e].
    + destruct (IH (registered self f (reg_tags r) (reg_kwargs r)))
        as (new & Hs & Hl & Hi & Hn & Ht).
      exists (PipelineStep_init f (next_id self) (reg_tags r) (reg_kwargs r) :: new).
      simpl in *. rewrite Hs, Hn, Hi, Hl, Ht, <- app_assoc. simpl.
      repeat split. lia.
    + apply IH.
Qed.

(** C4.  Whatever the pipeline and the registrations made on it, the steps
    they add come after those that were there, one for each call that does
    not raise, with the ids [next_id], [next_id + 1], ... in call order:
    strictly increasing, without repetition, each the value of the counter
    when its step was added; the counter ends past the last of them, and
    one call moves it by one exactly when it adds a step.  On a pipeline
    that starts without steps these are all its steps, numbered from 0. *)
Theorem add_step_ids_strictly_increase (regs : list (registration World))
    (self : Pipeline World) :
  (exists new : list (PipelineStep World),
     steps (add_steps codes regs self) = (steps self ++ new)%list
     /\ length new = length (List.filter (accepted codes) regs)
     /\ map step_id new = ids_from (next_id self) (length new)
     /\ StronglySorted Z.lt (map step_id new)
     /\ List.NoDup (map step_id new)
     /\ (forall id, In id (map step_id new) ->
           next_id self <= id < next_id (add_steps codes regs self))
     /\ next_id (add_steps codes regs self) = next_id self + Z.of_nat (length new))
  /\ (forall (f : PyFunc World) (tags : list tag) (kwargs : dict),
        match add_step codes f tags kwargs self with
        | (Ok _, self') =>
            exists step, steps self' = (steps self ++ [step])%list
              /\ step_id step = next_id self
              /\ next_id self' = next_id self + 1
        | (Raise _, self') => self' = self
        end)
  /\ (map step_id (steps (add_steps codes regs (Pipeline_init [])))
      = ids_from 0 (length (List.filter (accepted codes) regs))
      /\ StronglySorted Z.lt
           (map step_id (steps (add_steps codes regs (Pipeline_init []))))
      /\ List.NoDup (map step_id (steps (add_steps codes regs (Pipeline_init []))))).
Proof.
  split; [|split].
  - destruct (add_steps_ids regs self) as (new & Hs & Hl & Hi & Hn & _).
    exists new. rewrite Hi, Hn.
    split; [exact Hs|]. split; [exact Hl|]. split; [reflexivity|].
    split; [apply ids_from_sorted|]. split; [apply ids_from_NoDup|].
    split; [|reflexivity].
    intros id Hin. apply ids_from_bounds in Hin. exact Hin.
  - intros f tags kwargs. unfold add_step, bind, lift.
    destruct (resolve_func codes f) as [g|e]; simpl; [|reflexivity].
    eexists. repeat split.
  - destruct (add_steps_ids regs (Pipeline_init [])) as (new & Hs & Hl & Hi & _).
    simpl in Hs, Hi. rewrite Hs, Hi, Hl.
    split; [reflexivity|]. split; [apply ids_from_sorted | apply ids_from_NoDup].
Qed.

End RegistryFacts.

Section RunFacts.
Import pipeline.
Context {World : Type}.
Variable builtin : Runner -> behaviour World.

Lemma select_steps_with_tags (self : Pipeline World) (ts run_tags ignore_tags : list tag)
    (pipeline_steps : list (PipelineStep World)) (st : State World) :
  self_tags self = Some ts ->
  select_steps self run_tags ignore_tags pipeline_steps st
  = (Ok (if ((length run_tags =? 0)%nat || any_tag_in ts run_tags)
            && negb (any_tag_in ts ignore_tags)
         then pipeline_steps else []), st).
Proof.
  intros Ht. induction pipeline_steps as [|step rest IH]; simpl.
  - destruct (_ && _); reflexivity.
  - unfold bind at 1. unfold step_condition, bind, getattr_tags. rewrite Ht.
    unfold bind in IH.
    destruct (length run_tags =? 0)%nat; simpl.
    + fold (select_steps self run_tags ignore_tags rest st). rewrite IH.
      destruct (any_tag_in ts ignore_tags); reflexivity.
    + destruct (any_tag_in ts run_tags); simpl.
      * fold (select_steps self run_tags ignore_tags rest st). rewrite IH.
        destruct (any_tag_in ts ignore_tags); reflexivity.
      * fold (select_steps self run_tags ignore_tags rest st). rewrite IH.
        reflexivity.
Qed.

Lemma select_steps_without_tags (self : Pipeline World) (run_tags ignore_tags : list tag)
    (step : PipelineStep World) (rest : list (PipelineStep World)) (st : State World) :
  self_tags self = None ->
  select_steps self run_tags ignore_tags (step :: rest) st
  = (Raise (AttributeError "Pipeline" "tags"), st).
Proof.
  intros Ht. simpl. unfold bind at 1.
  unfold step_condition, bind, getattr_tags. rewrite Ht.
  destruct (length run_tags =? 0)%nat; reflexivity.
Qed.

(** On a pipeline as [__init__] and [add_step] leave it, [run] gets no
    further than its first line once there is a step to look at. *)
Lemma run_without_tags (g : Globals) (self : Pipeline World)
    (run_tags ignore_tags : list tag) (pipeline_steps : option (list (PipelineStep World)))
    (st : State World) :
  self_tags self = None ->
  default (steps self) pipeline_steps <> [] ->
  run builtin g self run_tags ignore_tags pipeline_steps st
  = (Raise (AttributeError "Pipeline" "tags"), st).
Proof.
  intros Ht Hne. unfold run, bind.
  destruct (default (steps self) pipeline_steps) as [|step rest]; [contradiction|].
  rewrite select_steps_without_tags by exact Ht. reflexivity.
Qed.

(** The world after [run] is what the step functions made of it: whatever
    they preserve, [run] preserves. *)
Lemma call_preserves (P : World -> Prop) (step : PipelineStep World) (arg : pyval)
    (st : State World) :
  step_preserves builtin P step -> P (world st) ->
  P (world (snd (call builtin (step_id step) (func step) arg (func_kwargs step) st))).
Proof.
  unfold step_preserves, call. intros Hs Hw.
  destruct (func step) as [name|f|r|]; simpl; try exact Hw.
  - specialize (Hs arg (func_kwargs step) (world st) Hw).
    destruct (f arg (func_kwargs step) (world st)); exact Hs.
  - specialize (Hs arg (func_kwargs step) (world st) Hw).
    destruct (builtin r arg (func_kwargs step) (world st)); exact Hs.
Qed.

Lemma gather_warnings_state (step : PipelineStep World) (result : PyResult)
    (all_warnings : option Table) (st : State World) :
  snd (gather_warnings step result all_warnings st) = st.
Proof.
  unfold gather_warnings, bind, lift, getattr_meta, ret, raise.
  destruct (dict_contains (items result) "warnings"); [|reflexivity].
  destruct (dict_getitem (items result) "warnings"); [|reflexivity].
  destruct (meta result); [|reflexivity].
  destruct (dict_getitem _ "filename"); [|reflexivity].
  destruct (setitem _ "filename" _); [|reflexivity].
  destruct (setitem _ "step" _); reflexivity.
Qed.

Lemma run_loop_preserves (P : World -> Prop) (g : Globals)
    (steps : list (PipelineStep World)) (all_warnings : option Table) (st : State World) :
  Forall (step_preserves builtin P) steps -> P (world st) ->
  P (world (snd (run_loop builtin g steps all_warnings st))).
Proof.
  intros Hall. revert all_warnings st.
  induction Hall as [|step rest Hstep Hrest IH]; intros all_warnings st Hw; simpl.
  - exact Hw.
  - unfold bind at 1. unfold getattr_ste_id.
    destruct (ste_id step) as [arg|]; simpl; [|exact Hw].
    unfold bind at 1.
    pose proof (call_preserves P step arg st Hstep Hw) as Hc.
    destruct (call builtin (step_id step) (func step) arg (func_kwargs step) st)
      as [[result|e] st1]; simpl in *; [|exact Hc].
    unfold bind at 1.
    pose proof (gather_warnings_state step result all_warnings st1) as Hg.
    destruct (gather_warnings step result all_warnings st1)
      as [[[result' all']|e] st2]; simpl in *; subst st2; [|exact Hc].
    unfold bind at 1. unfold lift.
    destruct (dict_getitem (items result') "status") as [status|e]; [|exact Hc].
    destruct (eq_str status "error"); [|apply IH; exact Hc].
    unfold bind, global_log, ret, raise. destruct (log g); exact Hc.
Qed.

Lemma select_steps_state (self : Pipeline World) (run_tags ignore_tags : list tag)
    (pipeline_steps : list (PipelineStep World)) (st : State World) :
  snd (select_steps self run_tags ignore_tags pipeline_steps st) = st
  /\ forall selected,
       fst (select_steps self run_tags ignore_tags pipeline_steps st) = Ok selected ->
       selected = pipeline_steps \/ selected = [].
Proof.
  destruct (self_tags self) as [ts|] eqn:Ht.
  - rewrite (select_steps_with_tags _ ts) by exact Ht. simpl. split; [reflexivity|].
    intros selected [= <-]. destruct (_ && _); auto.
  - destruct pipeline_steps as [|step rest].
    + simpl. split; [reflexivity|]. intros selected [= <-]. auto.
    + rewrite select_steps_without_tags by exact Ht. simpl.
      split; [reflexivity | discriminate].
Qed.

Lemma run_preserves (P : World -> Prop) (g : Globals) (self : Pipeline World)
    (run_tags ignore_tags : list tag)
    (pipeline_steps : option (list (PipelineStep World))) (st : State World) :
  Forall (step_preserves builtin P) (default (steps self) pipeline_steps) ->
  P (world st) ->
  P (world (snd (run builtin g self run_tags ignore_tags pipeline_steps st))).
Proof.
  intros Hall Hw. unfold run, bind.
  destruct (select_steps_state self run_tags ignore_tags
              (default (steps self) pipeline_steps) st) as [Hst Hsel].
  destruct (select_steps self run_tags ignore_tags
              (default (steps self) pipeline_steps) st) as [[selected|e] st'];
    simpl in *; subst st'; [|exact Hw].
  apply run_loop_preserves; [|exact Hw].
  destruct (Hsel selected eq_refl) as [-> | ->]; [exact Hall | constructor].
Qed.

(** One turn of the loop on a step whose result says [error]: the loop is
    left there, the rest of the list is not looked at, and the [dict] to
    return needs the global [log]. *)
Lemma run_loop_error_step (g : Globals) (step : PipelineStep World)
    (rest : list (PipelineStep World)) (all_warnings : option Table)
    (st st' : State World) (arg : pyval) (result : PyResult) :
  ste_id step = Some arg ->
  call builtin (step_id step) (func step) arg (func_kwargs step) st = (Ok result, st') ->
  dict_contains (items result) "warnings" = false ->
  dict_getitem (items result) "status" = Ok (VScalar (SStr "error")) ->
  run_loop builtin g (step :: rest) all_warnings st
  = match log g with
    | Some l => (Ok (RunError result all_warnings l), st')
    | None => (Raise (NameError "log"), st')
    end.
Proof.
  intros Ha Hc Hw Hs. simpl.
  unfold bind at 1. unfold getattr_ste_id. rewrite Ha. simpl.
  unfold bind at 1. rewrite Hc.
  unfold bind at 1. unfold gather_warnings. rewrite Hw. simpl.
  unfold bind at 1. unfold lift. rewrite Hs. simpl.
  unfold bind, global_log. destruct (log g); reflexivity.
Qed.

Lemma gather_warnings_cases (step : PipelineStep World) (result : PyResult)
    (all_warnings : option Table) (st : State World) :
  (dict_contains (items result) "warnings" = false ->
     gather_warnings step result all_warnings st = (Ok (result, all_warnings), st))
  /\ (forall t : Table,
        dict_getitem (items result) "warnings" = Ok (VTable t) ->
        (meta result = None ->
           gather_warnings step result all_warnings st
           = (Raise (AttributeError "dict" "meta"), st))
        /\ (forall m filename,
              meta result = Some m ->
              dict_getitem m "filename" = Ok (VScalar filename) ->
              exists result',
                gather_warnings step result all_warnings st
                = (Ok (result',
                       Some (mkTable
                               (match all_warnings with
                                | Some all => merge_meta (tmeta all) (tmeta t)
                                | None => tmeta t
                                end)
                               (match all_warnings with
                                | Some all => trows all
                                | None => []
                                end ++ tagged_rows t filename (step_id step)))), st))).
Proof.
  split.
  - intros Hc. unfold gather_warnings. rewrite Hc. reflexivity.
  - intros t Ht.
    assert (Hc : dict_contains (items result) "warnings" = true).
    { unfold dict_contains, dict_getitem in *.
      destruct (List.find _ (items result)) as [kv|] eqn:Hf; [|discriminate].
      apply existsb_exists. exists kv.
      apply List.find_some in Hf. exact Hf. }
    split.
    + intros Hm. unfold gather_warnings. rewrite Hc.
      unfold bind, lift, getattr_meta. rewrite Ht, Hm. reflexivity.
    + intros m filename Hm Hf. unfold gather_warnings. rewrite Hc.
      unfold bind, lift, getattr_meta. rewrite Ht, Hm. simpl. rewrite Hf. simpl.
      eexists. unfold ret. f_equal. f_equal. f_equal.
      destruct all_warnings as [all|]; simpl; unfold vstack, table_setcolumn, tagged_rows;
        simpl; rewrite map_map; reflexivity.
Qed.

End RunFacts.

Section RunEvaluated.
Import pipeline examples.

(** C1.  A pipeline with one step tagged A and B, run with
    [run_tags = ['A']]: the rule of the specification selects the step, but
    [run] raises [AttributeError] on [self.tags] and calls nothing.  The
    tags looked at are the pipeline's, not the step's: once a caller has
    given the pipeline the attribute, every step is kept or every step is
    dropped, so that with [pipe.tags = ['B']] and [run_tags = ['B']] a step
    tagged A alone is called, and with [pipe.tags = []] and
    [run_tags = ['A']] the step tagged A and B is not. *)
Theorem run_selects_by_pipeline_tags :
  (spec_selected ["A"] [] (mkStep (FUser (returns success_result)) 0 ["A"; "B"] [] None)
   = true
   /\ steps (pipeline_of [(returns success_result, ["A"; "B"])])
      = [mkStep (FUser (returns success_result)) 0 ["A"; "B"] [] None]
   /\ run no_runner no_globals (pipeline_of [(returns success_result, ["A"; "B"])])
        ["A"] [] None (start [])
      = (Raise (AttributeError "Pipeline" "tags"), start []))
  /\ (spec_selected ["B"] []
        (with_ste_id (mkStep (FUser (returns success_result)) 0 ["A"] [] None)) = false
      /\ run no_runner no_globals
           (patched ["B"] (pipeline_of [(returns success_result, ["A"])]))
           ["B"] [] None (start [])
         = (Ok (RunSuccess None), mkState [] [0]))
  /\ (run no_runner no_globals
        (patched [] (pipeline_of [(returns success_result, ["A"; "B"])]))
        ["A"] [] None (start [])
      = (Ok (RunSuccess None), start [])).
Proof. repeat split. Qed.

(** C2.  A pipeline whose second step returns an error result, followed by
    a third step.  As [add_step] builds it, [run] raises [AttributeError]
    on [self.tags] before any step is called.  With the attributes [tags]
    and [ste_id] supplied by the caller, the first two steps are called,
    the third is not, and the [dict] that should report the error is never
    built: its last entry reads the global [log], which the module does not
    define, and [run] raises [NameError].  Only with a [log] defined from
    outside is the error reported, with the failing step's result. *)
Theorem run_error_branch_reads_undefined_log :
  run no_runner no_globals
    (pipeline_of [(returns success_result, ["func1"]);
                  (returns error_result, ["func2"]);
                  (returns success_result, [])])
    [] [] None (start [])
  = (Raise (AttributeError "Pipeline" "tags"), start [])
  /\ run no_runner no_globals
       (patched [] (pipeline_of [(returns success_result, ["func1"]);
                                 (returns error_result, ["func2"]);
                                 (returns success_result, [])]))
       [] [] None (start [])
     = (Raise (NameError "log"), mkState [] [0; 1])
  /\ run no_runner with_log
       (patched [] (pipeline_of [(returns success_result, ["func1"]);
                                 (returns error_result, ["func2"]);
                                 (returns success_result, [])]))
       [] [] None (start [])
     = (Ok (RunError error_result None (VScalar (SStr "run.log"))), mkState [] [0; 1]).
Proof. repeat split. Qed.

(** C3.  [run] writes no file.  On a pipeline of two steps that succeed,
    with the attributes [tags] and [ste_id] supplied by the caller so that
    the steps are called, both steps complete and the disk is as it was: the
    log directory holds what it held, and no [pipeline.p].  (As [add_step]
    builds the pipeline, no step is called at all.) *)
Theorem run_writes_no_checkpoint :
  run no_runner no_globals
    (patched [] (pipeline_of [(returns success_result, ["func1"]);
                              (returns success_result, ["func2"])]))
    [] [] None (start [("log/notes.txt", "first run")])
  = (Ok (RunSuccess None), mkState [("log/notes.txt", "first run")] [0; 1])
  /\ List.find (fun file => (fst file =? "log/pipeline.p")%string)
       (world (snd (run no_runner no_globals
                      (patched [] (pipeline_of [(returns success_result, ["func1"]);
                                                (returns success_result, ["func2"])]))
                      [] [] None (start [("log/notes.txt", "first run")]))))
     = None
  /\ run no_runner no_globals
       (pipeline_of [(returns success_result, ["func1"]);
                     (returns success_result, ["func2"])])
       [] [] None (start [("log/notes.txt", "first run")])
     = (Raise (AttributeError "Pipeline" "tags"), start [("log/notes.txt", "first run")]).
Proof. repeat split. Qed.

(** C7.  A step that returns a plain [dict] with a table of warnings.  As
    [add_step] builds the pipeline, [run] raises on [self.tags].  With the
    attributes [tags] and [ste_id] supplied, the step is called and [run]
    raises [AttributeError]: the file name is looked for in [result.meta],
    and a [dict] has no [meta]; no row is collected.  Only for a result
    object that has a [meta] with the file name are the rows tagged with it
    and with the step id, and returned. *)
Theorem run_reads_filename_from_result_meta :
  run no_runner no_globals
    (pipeline_of [(returns warning_result, ["sex"])]) [] [] None (start [])
  = (Raise (AttributeError "Pipeline" "tags"), start [])
  /\ run no_runner no_globals
       (patched [] (pipeline_of [(returns warning_result, ["sex"])]))
       [] [] None (start [])
     = (Raise (AttributeError "dict" "meta"), mkState [] [0])
  /\ run no_runner no_globals
       (patched [] (pipeline_of [(returns warning_result_with_meta, ["sex"])]))
       [] [] None (start [])
     = (Ok (RunSuccess
              (Some (mkTable (tmeta sample_warnings)
                       [[("text", SStr "saturated"); ("filename", SStr "img.fits");
                         ("step", SInt 0)];
                        [("text", SStr "truncated"); ("filename", SStr "img.fits");
                         ("step", SInt 0)]]))),
        mkState [] [0]).
Proof. repeat split. Qed.

End RunEvaluated.

(** ** More of utils.py *)

Section UtilsMore.
Import utils.
Context {FS : Type} `{OS FS}.

(** X1.  [get_bool] asks once.  Whatever is waiting on the console, the
    prompt is shown once, at most one line is taken and the file system is
    not touched; the answer is the boolean the line stands for, [EOFError]
    when there is no line, and [UnboundLocalError] when the line is no
    boolean word: the question is not repeated. *)
Theorem get_bool_asks_once (prompt : string) (w : World FS) :
  stdout (snd (get_bool prompt w)) = (stdout w ++ [prompt])%list
  /\ stdin (snd (get_bool prompt w)) = tail (stdin w)
  /\ fs (snd (get_bool prompt w)) = fs w
  /\ match stdin w with
     | [] => fst (get_bool prompt w) = Raise EOFError
     | line :: _ =>
         match str_2_bool line with
         | Ok b => fst (get_bool prompt w) = Ok b
         | Raise _ => fst (get_bool prompt w) = Raise (UnboundLocalError "bool_str")
         end
     end.
Proof.
  destruct w as [[|line rest] out f]; unfold get_bool; simpl.
  - repeat split.
  - unfold str_2_bool.
    destruct (startswith "true" (lower line) || startswith "yes" (lower line));
      [repeat split|].
    destruct (startswith "false" (lower line) || startswith "no" (lower line));
      repeat split.
Qed.

Lemma create_paths_list_console (paths : list string) (w : World FS) :
  stdin (snd (create_paths_list paths w)) = stdin w
  /\ stdout (snd (create_paths_list paths w)) = stdout w
  /\ (fst (create_paths_list paths w) = Ok tt
      \/ fst (create_paths_list paths w) = Raise (AstromaticError cannot_create)
      \/ exists p f e,
           In p paths
           /\ fst (os_makedirs f p) = Raise e
           /\ (forall q, e <> OSError q)
           /\ fst (create_paths_list paths w) = Raise e).
Proof.
  revert w. induction paths as [|p rest IH]; intros w; simpl.
  - repeat split. left. reflexivity.
  - unfold bind.
    destruct (os_makedirs (fs w) p) as [[u|e] fs'] eqn:Em.
    + destruct (IH (mkWorld (stdin w) (stdout w) fs')) as (Hi & Ho & Hr).
      simpl in Hi, Ho. split; [exact Hi|]. split; [exact Ho|].
      destruct Hr as [Hr|[Hr|(p0 & f & e & Hin & Hm & Hne & Hr)]];
        [left; exact Hr | right; left; exact Hr |].
      right. right. exists p0, f, e. repeat split; [right|..]; assumption.
    + assert (Hother : (forall q, e <> OSError q) ->
                       exists p0 f e0,
                         (p = p0 \/ In p0 rest)
                         /\ fst (os_makedirs f p0) = Raise e0
                         /\ (forall q, e0 <> OSError q)
                         /\ Raise (A := unit) e = Raise e0).
      { intros Hne. exists p, (fs w), e. rewrite Em.
        repeat split; [left; reflexivity | exact Hne]. }
      destruct e;
        try (simpl; split; [reflexivity|]; split; [reflexivity|];
             right; right; apply Hother; discriminate).
      destruct (os_path_isdir fs' p).
      * destruct (IH (mkWorld (stdin w) (stdout w) fs')) as (Hi & Ho & Hr).
        simpl in Hi, Ho. split; [exact Hi|]. split; [exact Ho|].
        destruct Hr as [Hr|[Hr|(p0 & f & e & Hin & Hm & Hne & Hr)]];
          [left; exact Hr | right; left; exact Hr |].
        right. right. exists p0, f, e. repeat split; [right|..]; assumption.
      * simpl. repeat split. right. left. reflexivity.
Qed.

Lemma create_paths_list_existing (paths : list string) (w : World FS) :
  Forall (fun p => exists q, os_makedirs (fs w) p = (Raise (OSError q), fs w)
                             /\ os_path_isdir (fs w) p = true) paths ->
  create_paths_list paths w = (Ok tt, w).
Proof.
  destruct w as [inp out f]. simpl.
  induction 1 as [|p rest (q & Hm & Hd) _ IH]; simpl; [reflexivity|].
  unfold bind. simpl. rewrite Hm, Hd. exact IH.
Qed.

(** X2.  [create_paths] keeps [OSError] to itself.  For one path or a list,
    it completes, or raises [AstromaticError] with its own message, or lets
    through what [os.makedirs] raised for one of the paths when that is not
    an [OSError]; it neither reads from nor writes to the console; and on
    paths that [os.makedirs] refuses because they are directories already,
    it completes and changes nothing. *)
Theorem create_paths_swallows_oserror (paths : paths_arg) (w : World FS) :
  (fst (create_paths paths w) = Ok tt
   \/ fst (create_paths paths w) = Raise (AstromaticError cannot_create)
   \/ exists p f e,
        In p (paths_of paths)
        /\ fst (os_makedirs f p) = Raise e
        /\ (forall q, e <> OSError q)
        /\ fst (create_paths paths w) = Raise e)
  /\ stdin (snd (create_paths paths w)) = stdin w
  /\ stdout (snd (create_paths paths w)) = stdout w
  /\ (Forall (fun p => exists q, os_makedirs (fs w) p = (Raise (OSError q), fs w)
                                 /\ os_path_isdir (fs w) p = true)
        (paths_of paths) ->
      create_paths paths w = (Ok tt, w)).
Proof.
  assert (E : create_paths paths w = create_paths_list (paths_of paths) w)
    by (destruct paths; reflexivity).
  rewrite E.
  destruct (create_paths_list_console (paths_of paths) w) as (Hi & Ho & Hr).
  split; [exact Hr|]. split; [exact Hi|]. split; [exact Ho|].
  apply create_paths_list_existing.
Qed.

(** X3.  [check_path] lets the file system be touched only on a yes.
    Whatever [auto_create] is, the file system after the call is the one
    before, unless the path was missing and a line was typed that
    [str_2_bool] reads as true: then it is the file system [os.makedirs]
    left for that path, whether it made the directory or raised. *)
Theorem check_path_creates_only_on_yes (path : string) (auto_create : bool)
    (w : World FS) :
  fs (snd (check_path path auto_create w)) = fs w
  \/ (os_path_exists (fs w) path = false
      /\ exists line rest,
           stdin w = line :: rest
           /\ str_2_bool line = Ok true
           /\ fs (snd (check_path path auto_create w))
              = snd (os_makedirs (fs w) path)).
Proof.
  destruct w as [inp out f]. unfold check_path, bind, get. simpl.
  destruct (os_path_exists f path) eqn:Ex; simpl; [left; reflexivity|].
  destruct inp as [|line rest]; unfold get_bool; simpl; [left; reflexivity|].
  destruct (str_2_bool line) as [[|]|e] eqn:El; simpl.
  - right. split; [reflexivity|]. exists line, rest.
    split; [reflexivity|]. split; [exact El|].
    unfold bind. simpl.
    destruct (os_makedirs f path) as [[u|e] fs']; simpl; [reflexivity|].
    destruct e; try reflexivity.
    destruct (os_path_isdir fs' path); reflexivity.
  - left. reflexivity.
  - left. destruct e; reflexivity.
Qed.

End UtilsMore.

(** ** More of ldac.py *)

Section LdacMore.
Import ldac.
Variable primary_header : Header.
Variable bintable_header : Table -> Header.
Variable Table_write : Table -> res Table.
Variable from_fits : Table -> Table.
Variable writable : string -> bool.

Lemma ldac_units_lookup (tables : list HDU) (n : nat) :
  flat_map (ldac_units bintable_header) tables !! (2 * n + 1)%nat
  = (fun hdu => snd (convert_hdu_to_ldac bintable_header hdu)) <$> tables !! n.
Proof.
  revert n. induction tables as [|h tables IH]; intros n; [reflexivity|].
  destruct n as [|n]; [reflexivity|].
  replace (2 * S n + 1)%nat with (S (S (2 * n + 1))) by lia.
  simpl. apply IH.
Qed.

Lemma ldac_of_fits_lookup (primary : HDU) (tables : list HDU) (n : nat) :
  ldac_of_fits bintable_header (primary :: tables) !! S (2 * n + 1)
  = (fun hdu => snd (convert_hdu_to_ldac bintable_header hdu)) <$> tables !! n.
Proof. rewrite <- ldac_units_lookup. reflexivity. Qed.

(** An LDAC file that stands for a FITS file with a table has several
    table units. *)
Lemma ldac_of_fits_several_tables (primary hdu : HDU) (tables : list HDU) :
  exists t1 t2 rest,
    List.filter is_table (ldac_of_fits bintable_header (primary :: hdu :: tables))
    = t1 :: t2 :: rest.
Proof.
  simpl. destruct (is_table primary); eexists _, _, _; reflexivity.
Qed.

(** X5.  Frames of an LDAC file are the frames of the FITS file it stands
    for.  When [filename] holds the primary unit followed, for each table of
    a FITS file, by the two units [convert_hdu_to_ldac] makes of it, then
    [get_table_from_ldac(filename, n)] returns the table [Table.read] makes
    of the records of the FITS file's [n]-th table, for every [n] from 1 to
    the number of tables. *)
Theorem get_table_from_ldac_matches_fits_frame (primary hdu : HDU) (tables : list HDU)
    (filename : string) (disk : files) (n : nat) (tbl : Table) :
  disk !! filename = Some (ldac_of_fits bintable_header (primary :: tables)) ->
  (primary :: tables) !! S n = Some hdu ->
  data hdu = Some tbl ->
  get_table_from_ldac from_fits filename (Z.of_nat (S n)) disk
  = (Ok (from_fits tbl), disk).
Proof.
  intros Hf Hn Hd. unfold get_table_from_ldac, Table_read, files, HDUList in *.
  rewrite Hf.
  replace (0 <? Z.of_nat (S n)) with true by (symmetry; apply Z.ltb_lt; lia).
  change (tables !! n = Some hdu) in Hn.
  destruct tables as [|first tables]; [discriminate Hn|].
  destruct (ldac_of_fits_several_tables primary first tables) as (t1 & t2 & rest & ->).
  replace (0 <=? Z.of_nat (S n) * 2) with true by (symmetry; apply Z.leb_le; lia).
  replace (Z.to_nat (Z.of_nat (S n) * 2)) with (S (2 * n + 1)) by lia.
  rewrite ldac_of_fits_lookup, Hn. simpl.
  unfold records, new_bintable. simpl. rewrite Hd. reflexivity.
Qed.

(** X7.  Saving twice under one name.  After a first table has been saved
    under a free name, a second save under that name without the overwrite
    keyword raises and frame 1 still reads the records of the first table;
    with the keyword it completes and frame 1 reads those of the second. *)
Theorem save_table_as_ldac_twice (first second stored1 stored2 : Table)
    (filename : string) (disk : files) :
  Table_write first = Ok stored1 ->
  Table_write second = Ok stored2 ->
  writable filename = true ->
  disk !! filename = None ->
  exists disk1,
    save_table_as_ldac primary_header bintable_header Table_write writable
      first filename no_kwargs disk = (Ok tt, disk1)
    /\ save_table_as_ldac primary_header bintable_header Table_write writable
         second filename no_kwargs disk1 = (Raise (IOError filename), disk1)
    /\ get_table_from_ldac from_fits filename 1 disk1 = (Ok (from_fits stored1), disk1)
    /\ exists disk2,
         save_table_as_ldac primary_header bintable_header Table_write writable
           second filename (mkKw true) disk1 = (Ok tt, disk2)
         /\ get_table_from_ldac from_fits filename 1 disk2
            = (Ok (from_fits stored2), disk2).
Proof.
  intros Hw1 Hw2 Hcan Hfree.
  destruct (convert_table_to_ldac_layout primary_header bintable_header Table_write
              first stored1 Hw1) as (a0 & a1 & a2 & Ha & _).
  destruct (convert_table_to_ldac_layout primary_header bintable_header Table_write
              second stored2 Hw2) as (b0 & b1 & b2 & Hb & _).
  assert (H1 : save_table_as_ldac primary_header bintable_header Table_write writable
                 first filename no_kwargs disk
               = (Ok tt, <[filename := [a0; a1; a2]]> disk)).
  { unfold save_table_as_ldac, bind, lift. rewrite Ha. unfold writeto.
    rewrite Hcan, Hfree. reflexivity. }
  assert (H2 : save_table_as_ldac primary_header bintable_header Table_write writable
                 second filename (mkKw true) (<[filename := [a0; a1; a2]]> disk)
               = (Ok tt, <[filename := [b0; b1; b2]]> (<[filename := [a0; a1; a2]]> disk))).
  { unfold save_table_as_ldac, bind, lift. rewrite Hb. unfold writeto, files in *.
    rewrite Hcan, lookup_insert_eq. reflexivity. }
  exists (<[filename := [a0; a1; a2]]> disk).
  split; [exact H1|]. split; [|split].
  - unfold save_table_as_ldac, bind, lift. rewrite Hb. unfold writeto, files in *.
    rewrite lookup_insert_eq. reflexivity.
  - exact (save_then_get_frame_1 primary_header bintable_header Table_write from_fits
             writable first stored1 filename no_kwargs disk _ Hw1 H1).
  - eexists. split; [exact H2|].
    exact (save_then_get_frame_1 primary_header bintable_header Table_write from_fits
             writable second stored2 filename (mkKw true) _ _ Hw2 H2).
Qed.

End LdacMore.

Section LdacMoreWitnesses.
Import ldac.

Lemma get_table_from_ldac_second_frame :
  (({[ "multiext.ldac.fits" := ldac_of_fits sample_bintable_header two_frames ]} : files)
     !! "multiext.ldac.fits"
   = Some (ldac_of_fits sample_bintable_header two_frames)
   /\ two_frames !! 2%nat
      = Some (mkHDU BinTableHDU (sample_bintable_header other_table) (Some other_table)))
  /\ get_table_from_ldac sample_read "multiext.ldac.fits" 2
       {[ "multiext.ldac.fits" := ldac_of_fits sample_bintable_header two_frames ]}
     = (Ok other_table,
        {[ "multiext.ldac.fits" := ldac_of_fits sample_bintable_header two_frames ]}).
Proof.
  assert (Hf : ({[ "multiext.ldac.fits" := ldac_of_fits sample_bintable_header two_frames ]}
                  : files) !! "multiext.ldac.fits"
               = Some (ldac_of_fits sample_bintable_header two_frames))
    by (unfold files; apply lookup_singleton_eq).
  split; [split; [exact Hf | reflexivity]|].
  exact (get_table_from_ldac_matches_fits_frame sample_bintable_header sample_read
           (mkHDU PrimaryHDU sample_primary None)
           (mkHDU BinTableHDU (sample_bintable_header other_table) (Some other_table))
           _ "multiext.ldac.fits" _ 1 other_table Hf eq_refl eq_refl).
Defined.

Lemma save_table_as_ldac_twice_on_empty_disk :
  (sample_write sample_table = Ok sample_table
   /\ sample_write other_table = Ok other_table
   /\ sample_writable "temp.ldac.fits" = true
   /\ (∅ : files) !! "temp.ldac.fits" = None)
  /\ exists disk1,
       save_table_as_ldac sample_primary sample_bintable_header sample_write
         sample_writable sample_table "temp.ldac.fits" no_kwargs ∅ = (Ok tt, disk1)
       /\ save_table_as_ldac sample_primary sample_bintable_header sample_write
            sample_writable other_table "temp.ldac.fits" no_kwargs disk1
          = (Raise (IOError "temp.ldac.fits"), disk1)
       /\ get_table_from_ldac sample_read "temp.ldac.fits" 1 disk1
          = (Ok sample_table, disk1).
Proof.
  assert (Hfree : (∅ : files) !! "temp.ldac.fits" = None) by reflexivity.
  split; [repeat split|].
  destruct (save_table_as_ldac_twice sample_primary sample_bintable_header
              sample_write sample_read sample_writable
              sample_table other_table sample_table other_table "temp.ldac.fits" ∅
              eq_refl eq_refl eq_refl Hfree)
    as (disk1 & H1 & H2 & H3 & _).
  exists disk1. repeat split; assumption.
Defined.

End LdacMoreWitnesses.

(** ** More of pipeline.py: registry and engine *)

Section RegistryMore.
Import pipeline.
Context {World : Type}.
Variable codes : list string.

Lemma add_steps_app (regs1 regs2 : list (registration World)) (self : Pipeline World) :
  add_steps codes (regs1 ++ regs2) self
  = add_steps codes regs2 (add_steps codes regs1 self).
Proof.
  revert self. induction regs1 as [|r regs1 IH]; intros self; simpl; [reflexivity|].
  apply IH.
Qed.

Lemma add_steps_new_steps (regs : list (registration World)) (self : Pipeline World) :
  exists new : list (PipelineStep World),
    steps (add_steps codes regs self) = (steps self ++ new)%list
    /\ map tags new = map reg_tags (List.filter (accepted codes) regs)
    /\ map func_kwargs new = map reg_kwargs (List.filter (accepted codes) regs)
    /\ map (fun s => Ok (func s)) new
       = map (fun r => resolve_func codes (reg_func r)) (List.filter (accepted codes) regs)
    /\ Forall (fun s => ste_id s = None) new
    /\ self_tags (add_steps codes regs self) = self_tags self.
Proof.
  revert self. induction regs as [|r regs IH]; intros self; simpl.
  - exists []. rewrite app_nil_r. repeat split. constructor.
  - destruct (resolve_func codes (reg_func r)) as [f|e] eqn:Er.
    + assert (Ha : accepted codes r = true) by (unfold accepted; rewrite Er; reflexivity).
      rewrite Ha. unfold add_step, bind, lift. rewrite Er. simpl.
      destruct (IH (mkPipeline
                      (steps self ++ [PipelineStep_init f (next_id self) (reg_tags r)
                                        (reg_kwargs r)])
                      (next_id self + 1) (self_tags self)))
        as (new & Hs & Ht & Hk & Hf & Hi & Hg).
      exists (PipelineStep_init f (next_id self) (reg_tags r) (reg_kwargs r) :: new).
      simpl in *. rewrite Hs, Ht, Hk, Hf, Hg, Er, <- app_assoc. simpl.
      repeat split. constructor; [reflexivity | exact Hi].
    + assert (Ha : accepted codes r = false) by (unfold accepted; rewrite Er; reflexivity).
      rewrite Ha. unfold add_step, bind, lift. rewrite Er. simpl. apply IH.
Qed.

(** X8.  Registration order is step order.  The steps a sequence of
    [add_step] calls appends carry, in call order, the tags and keyword
    arguments of the calls that did not raise, and as function what the
    first statement of [add_step] made of the argument; none of them has the
    attribute [ste_id], and the pipeline's own attributes other than [steps]
    and [next_id] are untouched.  Registering in two batches is the same as
    registering all at once. *)
Theorem add_step_keeps_registration_order (regs more : list (registration World))
    (self : Pipeline World) :
  (exists new : list (PipelineStep World),
     steps (add_steps codes regs self) = (steps self ++ new)%list
     /\ map tags new = map reg_tags (List.filter (accepted codes) regs)
     /\ map func_kwargs new = map reg_kwargs (List.filter (accepted codes) regs)
     /\ map (fun s => Ok (func s)) new
        = map (fun r => resolve_func codes (reg_func r))
              (List.filter (accepted codes) regs)
     /\ Forall (fun s => ste_id s = None) new
     /\ self_tags (add_steps codes regs self) = self_tags self)
  /\ add_steps codes (regs ++ more) self
     = add_steps codes more (add_steps codes regs self).
Proof. split; [apply add_steps_new_steps | apply add_steps_app]. Qed.

End RegistryMore.

Section RunMore.
Import pipeline.
Context {World : Type}.
Variable builtin : Runner -> behaviour World.

Lemma select_steps_tags_only (self other : Pipeline World)
    (run_tags ignore_tags : list tag) (l : list (PipelineStep World)) (st : State World) :
  self_tags self = self_tags other ->
  select_steps self run_tags ignore_tags l st
  = select_steps other run_tags ignore_tags l st.
Proof.
  intros E. destruct (self_tags other) as [ts|] eqn:Ho.
  - rewrite (select_steps_with_tags self ts), (select_steps_with_tags other ts);
      [reflexivity | exact Ho | exact E].
  - destruct l as [|step rest]; [reflexivity|].
    rewrite !select_steps_without_tags by assumption. reflexivity.
Qed.

(** X9.  An explicit list of steps replaces the registry for the run.
    [run] with [pipeline_steps] given does what [run] without it does on a
    pipeline whose steps are that list: the pipeline's own steps and its id
    counter play no part. *)
Theorem run_with_explicit_steps (g : Globals) (self : Pipeline World)
    (run_tags ignore_tags : list tag) (l : list (PipelineStep World)) (st : State World) :
  run builtin g self run_tags ignore_tags (Some l) st
  = run builtin g (mkPipeline l 0 (self_tags self)) run_tags ignore_tags None st.
Proof.
  unfold run, bind. simpl.
  rewrite (select_steps_tags_only self (mkPipeline l 0 (self_tags self)));
    reflexivity.
Qed.

(** X10.  Registry and engine do not meet.  On a pipeline as [__init__] and
    any sequence of [add_step] calls leave it, [run] calls no step function
    and leaves the world alone, whatever tags and whatever explicit list of
    steps it is given: with no step to look at it returns success without
    warnings, otherwise it raises [AttributeError] for [self.tags]. *)
Theorem run_on_registered_pipeline_calls_nothing (codes : list string) (g : Globals)
    (initial : list (PipelineStep World)) (regs : list (registration World))
    (run_tags ignore_tags : list tag)
    (pipeline_steps : option (list (PipelineStep World))) (st : State World) :
  snd (run builtin g (add_steps codes regs (Pipeline_init initial))
         run_tags ignore_tags pipeline_steps st) = st
  /\ match default (steps (add_steps codes regs (Pipeline_init initial))) pipeline_steps with
     | [] =>
         fst (run builtin g (add_steps codes regs (Pipeline_init initial))
                run_tags ignore_tags pipeline_steps st) = Ok (RunSuccess None)
     | _ :: _ =>
         fst (run builtin g (add_steps codes regs (Pipeline_init initial))
                run_tags ignore_tags pipeline_steps st)
         = Raise (AttributeError "Pipeline" "tags")
     end.
Proof.
  destruct (add_steps_new_steps codes regs (Pipeline_init initial))
    as (new & _ & _ & _ & _ & _ & Ht).
  simpl in Ht.
  destruct (default (steps (add_steps codes regs (Pipeline_init initial))) pipeline_steps)
    as [|step rest] eqn:El.
  - unfold run, bind. rewrite El. simpl. split; reflexivity.
  - rewrite run_without_tags; [split; reflexivity | exact Ht |].
    rewrite El. discriminate.
Qed.

Lemma call_calls (id : Z) (f : PyFunc World) (arg : pyval) (kwargs : dict)
    (st : State World) :
  calls (snd (call builtin id f arg kwargs st)) = (calls st ++ [id])%list
  \/ (snd (call builtin id f arg kwargs st) = st
      /\ exists e, fst (call builtin id f arg kwargs st) = Raise e).
Proof.
  destruct f as [name|b|r|]; simpl.
  - right. split; [reflexivity | eauto].
  - left. destruct (b arg kwargs (world st)). reflexivity.
  - left. destruct (builtin r arg kwargs (world st)). reflexivity.
  - right. split; [reflexivity | eauto].
Qed.

Lemma take_S_cons {A} (x : A) (l : list A) (n : nat) :
  take (S n) (x :: l) = x :: take n l.
Proof. reflexivity. Qed.

(** One turn of the loop, spelled out. *)
Lemma run_loop_cons (g : Globals) (step : PipelineStep World)
    (rest : list (PipelineStep World)) (all_warnings : option Table) (st : State World) :
  run_loop builtin g (step :: rest) all_warnings st
  = match ste_id step with
    | None => (Raise (AttributeError "PipelineStep" "ste_id"), st)
    | Some arg =>
        match call builtin (step_id step) (func step) arg (func_kwargs step) st with
        | (Raise e, st1) => (Raise e, st1)
        | (Ok result, st1) =>
            match gather_warnings step result all_warnings st1 with
            | (Raise e, st2) => (Raise e, st2)
            | (Ok gathered, st2) =>
                match dict_getitem (items (fst gathered)) "status" with
                | Raise e => (Raise e, st2)
                | Ok status =>
                    if eq_str status "error" then
                      match log g with
                      | Some l => (Ok (RunError (fst gathered) (snd gathered) l), st2)
                      | None => (Raise (NameError "log"), st2)
                      end
                    else run_loop builtin g rest (snd gathered) st2
                end
            end
        end
    end.
Proof.
  simpl. unfold bind at 1. unfold getattr_ste_id.
  destruct (ste_id step) as [arg|]; [|reflexivity]. simpl.
  unfold bind at 1.
  destruct (call builtin (step_id step) (func step) arg (func_kwargs step) st)
    as [[result|e] st1]; [|reflexivity].
  unfold bind at 1.
  destruct (gather_warnings step result all_warnings st1)
    as [[gathered|e] st2]; [|reflexivity].
  unfold bind at 1. unfold lift.
  destruct (dict_getitem (items (fst gathered)) "status") as [status|e]; [|reflexivity].
  destruct (eq_str status "error"); [|reflexivity].
  unfold bind, global_log, ret, raise. destruct (log g); reflexivity.
Qed.

(** The steps the loop has called are the first [n] of its list, in order;
    all of them when it returns success, and up to the failing one when it
    returns the error [dict]. *)
Lemma run_loop_calls (g : Globals) (steps : list (PipelineStep World))
    (all_warnings : option Table) (st : State World) :
  exists n : nat,
    (n <= length steps)%nat
    /\ calls (snd (run_loop builtin g steps all_warnings st))
       = (calls st ++ map step_id (take n steps))%list
    /\ (forall w, fst (run_loop builtin g steps all_warnings st) = Ok (RunSuccess w) ->
          n = length steps)
    /\ (forall fr w l,
          fst (run_loop builtin g steps all_warnings st) = Ok (RunError fr w l) ->
          (0 < n)%nat
          /\ exists status, dict_getitem (items fr) "status" = Ok status
                            /\ eq_str status "error" = true).
Proof.
  revert all_warnings st. induction steps as [|step rest IH]; intros all_warnings st.
  - exists 0%nat. simpl. rewrite app_nil_r.
    repeat split; try lia; try reflexivity; discriminate.
  - rewrite run_loop_cons.
    destruct (ste_id step) as [arg|].
    2: { exists 0%nat. simpl. rewrite app_nil_r. repeat split; try lia; discriminate. }
    destruct (call_calls (step_id step) (func step) arg (func_kwargs step) st)
      as [Hc | [Hs [e He]]].
    2: { destruct (call builtin (step_id step) (func step) arg (func_kwargs step) st)
           as [r st1]. simpl in Hs, He. subst.
         exists 0%nat. simpl. rewrite app_nil_r. repeat split; try lia; discriminate. }
    destruct (call builtin (step_id step) (func step) arg (func_kwargs step) st)
      as [[result|e] st1]; simpl in Hc.
    2: { exists 1%nat. simpl. rewrite Hc. repeat split; try lia; discriminate. }
    pose proof (gather_warnings_state step result all_warnings st1) as Hg.
    destruct (gather_warnings step result all_warnings st1)
      as [[gathered|e] st2]; simpl in Hg; subst st2.
    2: { exists 1%nat. simpl. rewrite Hc. repeat split; try lia; discriminate. }
    destruct (dict_getitem (items (fst gathered)) "status") as [status|e] eqn:Es.
    2: { exists 1%nat. simpl. rewrite Hc. repeat split; try lia; discriminate. }
    destruct (eq_str status "error") eqn:Ee.
    + exists 1%nat. destruct (log g); simpl; rewrite Hc.
      * split; [lia|]. split; [reflexivity|]. split; [discriminate|].
        intros fr w l E. injection E as <- _ _. split; [lia | eauto].
      * split; [lia|]. split; [reflexivity|]. split; discriminate.
    + destruct (IH (snd gathered) st1) as (n & Hn & Hcalls & Hsucc & Herr).
      exists (S n). rewrite Hcalls, Hc, take_S_cons. simpl.
      rewrite <- app_assoc. simpl.
      split; [lia|]. split; [reflexivity|]. split.
      * intros w E. f_equal. eapply Hsucc, E.
      * intros fr w l E. destruct (Herr fr w l E) as [_ Hst]. split; [lia | exact Hst].
Qed.

(** X11.  Steps are called in list order, without gaps.  What [run] has
    called when it ends, normally or not, is the first [n] steps of the list
    it was to run, in that order, each once.  When it returns success it
    either called them all or had selected none; when it returns the error
    [dict], at least one step was called and the result in it is of status
    [error]. *)
Theorem run_calls_steps_in_order (g : Globals) (self : Pipeline World)
    (run_tags ignore_tags : list tag)
    (pipeline_steps : option (list (PipelineStep World))) (st : State World) :
  exists n : nat,
    (n <= length (default (steps self) pipeline_steps))%nat
    /\ calls (snd (run builtin g self run_tags ignore_tags pipeline_steps st))
       = (calls st ++ map step_id (take n (default (steps self) pipeline_steps)))%list
    /\ (forall w,
          fst (run builtin g self run_tags ignore_tags pipeline_steps st)
          = Ok (RunSuccess w) ->
          n = length (default (steps self) pipeline_steps) \/ (n = 0%nat /\ w = None))
    /\ (forall fr w l,
          fst (run builtin g self run_tags ignore_tags pipeline_steps st)
          = Ok (RunError fr w l) ->
          (0 < n)%nat
          /\ exists status, dict_getitem (items fr) "status" = Ok status
                            /\ eq_str status "error" = true).
Proof.
  unfold run, bind.
  destruct (select_steps_state self run_tags ignore_tags
              (default (steps self) pipeline_steps) st) as [Hst Hsel].
  destruct (select_steps self run_tags ignore_tags
              (default (steps self) pipeline_steps) st) as [[selected|e] st'];
    simpl in Hst; subst st'.
  - destruct (Hsel selected eq_refl) as [-> | ->].
    + destruct (run_loop_calls g (default (steps self) pipeline_steps) None st)
        as (n & Hn & Hc & Hs & He).
      exists n. split; [exact Hn|]. split; [exact Hc|]. split; [|exact He].
      intros w E. left. eapply Hs, E.
    + exists 0%nat. simpl. rewrite app_nil_r.
      split; [lia|]. split; [reflexivity|]. split.
      * intros w [= <-]. right. split; reflexivity.
      * discriminate.
  - exists 0%nat. simpl. rewrite app_nil_r.
    split; [lia|]. split; [reflexivity|]. split; discriminate.
Qed.

Lemma run_loop_never_error_without_log (steps : list (PipelineStep World))
    (all_warnings : option Table) (st : State World) :
  is_RunError (fst (run_loop builtin (mkGlobals None) steps all_warnings st)) = false.
Proof.
  revert all_warnings st. induction steps as [|step rest IH]; intros all_warnings st;
    [reflexivity|].
  rewrite run_loop_cons.
  destruct (ste_id step) as [arg|]; [|reflexivity].
  destruct (call builtin (step_id step) (func step) arg (func_kwargs step) st)
    as [[result|e] st1]; [|reflexivity].
  destruct (gather_warnings step result all_warnings st1)
    as [[gathered|e] st2]; [|reflexivity].
  destruct (dict_getitem (items (fst gathered)) "status") as [status|e]; [|reflexivity].
  destruct (eq_str status "error"); [reflexivity | apply IH].
Qed.

(** X12.  Without a global [log] the error [dict] is never returned.  In
    the module as it is, where nothing defines [log], [run] returns success
    or raises; it never returns [{'status': 'error', ...}], whatever the
    pipeline, the steps and their results. *)
Theorem run_never_returns_error_dict (self : Pipeline World)
    (run_tags ignore_tags : list tag)
    (pipeline_steps : option (list (PipelineStep World))) (st : State World) :
  is_RunError
    (fst (run builtin (mkGlobals None) self run_tags ignore_tags pipeline_steps st))
  = false.
Proof.
  unfold run, bind.
  destruct (select_steps self run_tags ignore_tags
              (default (steps self) pipeline_steps) st) as [[selected|e] st'];
    [apply run_loop_never_error_without_log | reflexivity].
Qed.

(** X13.  Steps made by [PipelineStep.__init__] cannot be called.  When no
    step of the list has the attribute [ste_id], [run] calls nothing and
    leaves the world alone also on a pipeline that has been given a [tags]
    attribute: it returns success without warnings if it selects no step,
    and otherwise raises [AttributeError], for [ste_id] or for [tags]. *)
Theorem run_needs_ste_id (g : Globals) (self : Pipeline World)
    (run_tags ignore_tags : list tag)
    (pipeline_steps : option (list (PipelineStep World))) (st : State World) :
  Forall (fun step => ste_id step = None) (default (steps self) pipeline_steps) ->
  snd (run builtin g self run_tags ignore_tags pipeline_steps st) = st
  /\ (fst (run builtin g self run_tags ignore_tags pipeline_steps st)
      = Ok (RunSuccess None)
      \/ fst (run builtin g self run_tags ignore_tags pipeline_steps st)
         = Raise (AttributeError "PipelineStep" "ste_id")
      \/ fst (run builtin g self run_tags ignore_tags pipeline_steps st)
         = Raise (AttributeError "Pipeline" "tags")).
Proof.
  intros Hall. unfold run, bind.
  destruct (select_steps_state self run_tags ignore_tags
              (default (steps self) pipeline_steps) st) as [Hst Hsel].
  destruct (select_steps self run_tags ignore_tags
              (default (steps self) pipeline_steps) st) as [[selected|e] st'] eqn:E;
    simpl in Hst; subst st'.
  - destruct (Hsel selected eq_refl) as [-> | ->].
    + destruct Hall as [|step rest Hstep _].
      * split; [reflexivity | left; reflexivity].
      * rewrite run_loop_cons, Hstep.
        split; [reflexivity | right; left; reflexivity].
    + simpl. split; [reflexivity | left; reflexivity].
  - simpl. split; [reflexivity|]. right. right.
    destruct (self_tags self) as [ts|] eqn:Ht.
    + rewrite (select_steps_with_tags self ts) in E by exact Ht. discriminate E.
    + destruct (default (steps self) pipeline_steps) as [|step rest]; [discriminate E|].
      rewrite select_steps_without_tags in E by exact Ht.
      injection E as <-. reflexivity.
Qed.

End RunMore.

Section RunMore2.
Import pipeline.
Context {World : Type}.
Variable builtin : Runner -> behaviour World.

Lemma run_loop_quiet (g : Globals) (steps : list (PipelineStep World))
    (all_warnings : option Table) (st : State World) :
  Forall runs_quietly steps ->
  exists st',
    run_loop builtin g steps all_warnings st = (Ok (RunSuccess all_warnings), st')
    /\ calls st' = (calls st ++ map step_id steps)%list.
Proof.
  intros Hall. revert st.
  induction Hall as [|step rest [[arg Harg] (f & Hf & Hq)] _ IH]; intros st.
  - exists st. simpl. rewrite app_nil_r. split; reflexivity.
  - rewrite run_loop_cons, Harg, Hf. simpl.
    destruct (Hq arg (func_kwargs step) (world st))
      as (result & w' & Hcall & Hnowarn & status & Hstatus & Hok).
    rewrite Hcall. unfold gather_warnings. rewrite Hnowarn. simpl.
    rewrite Hstatus, Hok.
    destruct (IH (mkState w' (calls st ++ [step_id step]))) as (st' & Hrun & Hcalls).
    exists st'. split; [exact Hrun|].
    rewrite Hcalls. simpl. rewrite <- app_assoc. reflexivity.
Qed.


Lemma dict_getitem_contains (d : dict) (key : string) (v : pyval) :
  dict_getitem d key = Ok v -> dict_contains d key = true.
Proof.
  unfold dict_contains, dict_getitem.
  destruct (List.find _ d) as [kv|] eqn:Hf; [|discriminate].
  intros _. apply existsb_exists. exists kv. apply List.find_some in Hf. exact Hf.
Qed.

(** X16.  An entry ['warnings': None] stops the run.  When the function of
    the step in turn returns a [dict] that has the key ['warnings'] with
    [None] in it, the loop does not go on as if there were no warnings: it
    raises, [AttributeError] for a plain [dict] and [TypeError] for an
    object with a [meta] and file name, and the steps after it are not
    called. *)
Theorem run_loop_stops_on_warnings_none (g : Globals) (step : PipelineStep World)
    (rest : list (PipelineStep World)) (all_warnings : option Table)
    (st st1 : State World) (arg : pyval) (result : PyResult) :
  ste_id step = Some arg ->
  call builtin (step_id step) (func step) arg (func_kwargs step) st = (Ok result, st1) ->
  dict_getitem (items result) "warnings" = Ok (VScalar SNone) ->
  (meta result = None ->
     run_loop builtin g (step :: rest) all_warnings st
     = (Raise (AttributeError "dict" "meta"), st1))
  /\ (forall m filename,
        meta result = Some m -> dict_getitem m "filename" = Ok filename ->
        run_loop builtin g (step :: rest) all_warnings st
        = (Raise (TypeError "object does not support item assignment"), st1)).
Proof.
  intros Ha Hc Hw. rewrite run_loop_cons, Ha, Hc.
  unfold gather_warnings. rewrite (dict_getitem_contains _ _ _ Hw).
  unfold bind, lift, getattr_meta. rewrite Hw. split.
  - intros ->. reflexivity.
  - intros m filename -> Hf. simpl. rewrite Hf. reflexivity.
Qed.

End RunMore2.

Section RunMoreWitnesses.
Import pipeline examples more_examples.

Lemma run_needs_ste_id_two_steps :
  Forall (fun step : PipelineStep Files => ste_id step = None)
         (default (steps (mkPipeline (steps two_steps) 2 (Some []))) None)
  /\ snd (run no_runner no_globals (mkPipeline (steps two_steps) 2 (Some [])) [] [] None
            (start [])) = start []
  /\ (fst (run no_runner no_globals (mkPipeline (steps two_steps) 2 (Some [])) [] [] None
             (start [])) = Ok (RunSuccess None)
      \/ fst (run no_runner no_globals (mkPipeline (steps two_steps) 2 (Some [])) [] []
                 None (start []))
         = Raise (AttributeError "PipelineStep" "ste_id")
      \/ fst (run no_runner no_globals (mkPipeline (steps two_steps) 2 (Some [])) [] []
                 None (start []))
         = Raise (AttributeError "Pipeline" "tags")).
Proof.
  assert (Hall : Forall (fun step : PipelineStep Files => ste_id step = None)
                   (default (steps (mkPipeline (steps two_steps) 2 (Some []))) None))
    by (repeat constructor).
  split; [exact Hall|].
  exact (run_needs_ste_id no_runner no_globals
           (mkPipeline (steps two_steps) 2 (Some [])) [] [] None (start []) Hall).
Defined.

Lemma returns_success_runs_quietly (id : Z) :
  runs_quietly (callable_step (returns success_result) id).
Proof.
  split; [eexists; reflexivity|].
  exists (returns success_result). split; [reflexivity|].
  intros arg kwargs w. exists success_result, w.
  split; [reflexivity|]. split; [reflexivity|].
  eexists. split; reflexivity.
Defined.


Lemma run_loop_stops_on_frames_result :
  (ste_id (callable_step (returns frames_result) 0) = Some (VScalar (SInt 0))
   /\ call no_runner 0 (FUser (returns frames_result)) (VScalar (SInt 0)) [] (start [])
      = (Ok frames_result, mkState [] [0])
   /\ dict_getitem (items frames_result) "warnings" = Ok (VScalar SNone))
  /\ run_loop no_runner no_globals
       [callable_step (returns frames_result) 0;
        callable_step (returns success_result) 1] None (start [])
     = (Raise (AttributeError "dict" "meta"), mkState [] [0]).
Proof.
  split; [repeat split|].
  apply (run_loop_stops_on_warnings_none no_runner no_globals
           (callable_step (returns frames_result) 0)
           [callable_step (returns success_result) 1] None (start []) (mkState [] [0])
           (VScalar (SInt 0)) frames_result eq_refl eq_refl eq_refl).
  reflexivity.
Defined.

End RunMoreWitnesses.

(** ** pipeline.py: the built-in runners *)

Section RunnerFacts.
Import runners.
Context {World : Type}.

Lemma config_set_absent (c : api.config) (key : string) (v : api.value) :
  config_has c key = false -> api.config_set c key v = (c ++ [(key, v)])%list.
Proof.
  unfold config_has. induction c as [|[k x] c IH]; simpl; [reflexivity|].
  destruct (k =? key)%string; simpl; [discriminate|].
  intros H. rewrite IH by exact H. reflexivity.
Qed.

Lemma config_get_set (c : api.config) (key : string) (v : api.value) :
  config_get (api.config_set c key v) key = Some v.
Proof.
  unfold config_get. induction c as [|[k x] c IH]; simpl.
  - rewrite String.eqb_refl. reflexivity.
  - destruct (k =? key)%string eqn:E; simpl.
    + rewrite String.eqb_refl. reflexivity.
    + rewrite E. exact IH.
Qed.

Lemma config_get_set_other (c : api.config) (key k : string) (v : api.value) :
  k <> key -> config_get (api.config_set c key v) k = config_get c k.
Proof.
  intros Hne. unfold config_get.
  assert (Hk : (key =? k)%string = false) by (apply String.eqb_neq; congruence).
  induction c as [|[k0 x] c IH]; simpl.
  - rewrite Hk. reflexivity.
  - destruct (k0 =? key)%string eqn:E; simpl.
    + apply String.eqb_eq in E. subst k0. rewrite Hk. reflexivity.
    + destruct (k0 =? k)%string; [reflexivity | exact IH].
Qed.

Lemma config_get_app (c added : api.config) (key : string) (v : api.value) :
  config_get c key = Some v -> config_get (c ++ added)%list key = Some v.
Proof.
  unfold config_get. induction c as [|[k x] c IH]; simpl; [discriminate|].
  destruct (k =? key)%string; [trivial | exact IH].
Qed.

Lemma config_get_app_absent (c added : api.config) (key : string) :
  config_has c key = false -> config_get (c ++ added)%list key = config_get added key.
Proof.
  unfold config_get, config_has. induction c as [|[k x] c IH]; simpl; [reflexivity|].
  destruct (k =? key)%string; simpl; [discriminate | exact IH].
Qed.

Lemma only_adds_ret {A} (a : A) : only_adds (ret a : M (RunnerState World) A).
Proof. intros st. simpl. repeat split. exists []. rewrite app_nil_r. reflexivity. Qed.

Lemma only_adds_raise {A} (e : exn) : only_adds (raise e : M (RunnerState World) A).
Proof. intros st. simpl. repeat split. exists []. rewrite app_nil_r. reflexivity. Qed.

Lemma only_adds_bind {A B} (m : M (RunnerState World) A)
    (k : A -> M (RunnerState World) B) :
  only_adds m -> (forall a, only_adds (k a)) -> only_adds (bind m k).
Proof.
  intros Hm Hk st. unfold bind.
  destruct (Hm st) as (Ho & Hx & added & Ha).
  destruct (m st) as [[a|e] st1]; simpl in *.
  - destruct (Hk a st1) as (Ho' & Hx' & added' & Ha').
    rewrite Ho', Hx', Ha', Ha, <- app_assoc. repeat split; try assumption. eauto.
  - repeat split; try assumption. eauto.
Qed.

Lemma only_adds_update_config (f : ApiKwargs -> ApiKwargs) :
  (forall k, others (f k) = others k) ->
  (forall k, exists added,
       default [] (config (f k)) = (default [] (config k) ++ added)%list) ->
  only_adds (update World f).
Proof.
  intros Ho Hc st. unfold update. simpl. split; [reflexivity|]. split; [apply Ho | apply Hc].
Qed.

Lemma only_adds_config_default (key : string) (v : M (RunnerState World) api.value) :
  (forall st, snd (v st) = st) -> only_adds (config_default World key v).
Proof.
  intros Hv st. unfold config_default, bind, current_config.
  destruct (config_has (default [] (config (kwargs st))) key) eqn:Eh.
  - apply (only_adds_ret tt st).
  - specialize (Hv st). destruct (v st) as [[x|e] st1]; simpl in Hv; subst st1.
    + unfold set_config, update. simpl. repeat split.
      exists [(key, x)]. apply config_set_absent, Eh.
    + apply (only_adds_raise (A := unit) e st).
Qed.

Lemma files_getitem_state (files : names) (key : string) (st : RunnerState World) :
  snd (files_getitem World files key st) = st.
Proof. unfold files_getitem. destruct (names_get files key); reflexivity. Qed.

Lemma xml_name_state (scope : Scope) (step_id : pipeline.scalar) (suffix : string)
    (st : RunnerState World) :
  snd (xml_name World scope step_id suffix st) = st.
Proof. unfold xml_name. destruct (pipeline_log_path scope); reflexivity. Qed.

Lemma only_adds_common_defaults (self : RunnerSelf) (code_name build_key : string) :
  only_adds (common_defaults World self code_name build_key).
Proof.
  apply only_adds_update_config; intros k; simpl; [reflexivity|].
  exists []. rewrite app_nil_r. reflexivity.
Qed.

Lemma only_adds_optional_file (files : names) (key file_key : string) :
  only_adds
    (c <- current_config World ;;
     if negb (config_has c key) && names_has files file_key
     then (v <- files_getitem World files file_key ;; set_config World key (api.VStr v))
     else ret tt).
Proof.
  intros st. unfold bind, current_config.
  destruct (config_has (default [] (config (kwargs st))) key) eqn:Eh; simpl;
    [apply (only_adds_ret tt st)|].
  destruct (names_has files file_key); simpl; [|apply (only_adds_ret tt st)].
  unfold files_getitem. destruct (names_get files file_key) as [v|]; simpl.
  - repeat split. exists [(key, api.VStr v)]. apply config_set_absent, Eh.
  - repeat split. exists []. rewrite app_nil_r. reflexivity.
Qed.

Lemma only_adds_prepare_sex (self : RunnerSelf) (scope : Scope)
    (step_id : pipeline.scalar) (files : names) :
  only_adds (prepare_sex (World := World) self scope step_id files).
Proof.
  unfold prepare_sex.
  apply only_adds_bind; [apply only_adds_common_defaults | intros _].
  apply only_adds_bind.
  { apply only_adds_config_default. intros st. unfold bind.
    pose proof (files_getitem_state files "image" st) as Hs.
    destruct (files_getitem World files "image" st) as [[image|e] st1];
      simpl in *; exact Hs. }
  intros _. apply only_adds_bind; [apply only_adds_optional_file | intros _].
  apply only_adds_bind; [apply only_adds_optional_file | intros _].
  apply only_adds_bind.
  { apply only_adds_config_default. reflexivity. }
  intros _. apply only_adds_config_default. intros st. apply xml_name_state.
Qed.

Lemma only_adds_prepare_psfex (self : RunnerSelf) (scope : Scope)
    (step_id : pipeline.scalar) :
  only_adds (prepare_psfex (World := World) self scope step_id).
Proof.
  unfold prepare_psfex.
  apply only_adds_bind; [apply only_adds_common_defaults | intros _].
  apply only_adds_bind; [apply only_adds_config_default; reflexivity | intros _].
  apply only_adds_config_default. intros st. apply xml_name_state.
Qed.

Lemma only_adds_prepare_swarp (self : RunnerSelf) (scope : Scope)
    (step_id : pipeline.scalar) :
  only_adds (prepare_swarp (World := World) self scope step_id).
Proof.
  unfold prepare_swarp.
  apply only_adds_bind; [apply only_adds_common_defaults | intros _].
  apply only_adds_bind.
  { apply only_adds_config_default. intros st.
    destruct (temp_path (kwargs st)); reflexivity. }
  intros _. apply only_adds_bind.
  { intros st. unfold bind, current_config.
    destruct (config_has _ "IMAGEOUT_NAME");
      [apply (only_adds_ret tt st) | apply (only_adds_raise (A := unit) _ st)]. }
  intros _.
  apply only_adds_bind; [apply only_adds_config_default; reflexivity | intros _].
  apply only_adds_config_default. intros st. apply xml_name_state.
Qed.

Lemma only_adds_prepare_scamp (self : RunnerSelf) (scope : Scope)
    (step_id : pipeline.scalar) :
  only_adds (prepare_scamp (World := World) self scope step_id None).
Proof.
  unfold prepare_scamp.
  apply only_adds_bind; [apply only_adds_common_defaults | intros _].
  apply only_adds_bind; [apply only_adds_ret | intros _].
  apply only_adds_bind; [apply only_adds_config_default; reflexivity | intros _].
  apply only_adds_config_default. intros st. apply xml_name_state.
Qed.

Lemma only_adds_keeps_entry {A} (m : M (RunnerState World) A) (st : RunnerState World)
    (key : string) (v : api.value) :
  only_adds m ->
  config_get (default [] (config (kwargs st))) key = Some v ->
  config_get (default [] (config (kwargs (snd (m st))))) key = Some v.
Proof.
  intros Hm Hg. destruct (Hm st) as (_ & _ & added & Ha).
  rewrite Ha. apply config_get_app, Hg.
Qed.


Lemma config_has_app (c l : api.config) (key : string) :
  config_has (c ++ l)%list key = config_has c key || config_has l key.
Proof. unfold config_has. apply existsb_app. Qed.

Lemma config_has_missing (c l : api.config) (key : string) :
  config_has l key = false -> config_has (missing_from c l) key = false.
Proof.
  unfold config_has, missing_from. induction l as [|kv l IH]; simpl; [reflexivity|].
  intros H. apply orb_false_iff in H. destruct H as [H1 H2].
  destruct (negb (config_has c (fst kv))); simpl; [rewrite H1|]; apply IH, H2.
Qed.

Lemma missing_from_app (c l1 l2 : api.config) :
  missing_from c (l1 ++ l2)%list = (missing_from c l1 ++ missing_from c l2)%list.
Proof. unfold missing_from. apply List.filter_app. Qed.

(** Adding the missing ones of [l1] and then of [l2] is adding the missing
    ones of both, when no key of [l2] is a key of [l1]. *)
Lemma add_missing_twice (c l1 l2 : api.config) :
  forallb (fun kv => negb (config_has l1 (fst kv))) l2 = true ->
  ((c ++ missing_from c l1) ++ missing_from (c ++ missing_from c l1) l2)%list
  = (c ++ missing_from c (l1 ++ l2))%list.
Proof.
  intros Hd. rewrite missing_from_app, <- app_assoc. f_equal. f_equal.
  unfold missing_from at 1 3. apply List.filter_ext_in. intros kv Hin.
  rewrite config_has_app.
  rewrite forallb_forall in Hd. specialize (Hd kv Hin).
  apply negb_true_iff in Hd. rewrite (config_has_missing c l1 _ Hd), orb_false_r.
  reflexivity.
Qed.

Lemma names_has_get (d : names) (key : string) :
  names_has d key = match names_get d key with Some _ => true | None => false end.
Proof.
  unfold names_has, names_get. induction d as [|[k v] d IH]; simpl; [reflexivity|].
  destruct (k =? key)%string; [reflexivity | exact IH].
Qed.

Lemma bind_ok {S A B} (m : M S A) (k : A -> M S B) (st st' : S) (a : A) :
  m st = (Ok a, st') -> bind m k st = k a st'.
Proof. intros E. unfold bind. rewrite E. reflexivity. Qed.

Lemma bind_raise {S A B} (m : M S A) (k : A -> M S B) (st st' : S) (e : exn) :
  m st = (Raise e, st') -> bind m k st = (Raise e, st').
Proof. intros E. unfold bind. rewrite E. reflexivity. Qed.

Lemma config_default_step (key : string) (v : M (RunnerState World) api.value)
    (x : api.value) (a b t : option string) (c : api.config) (o : names) (w : World) :
  v (mkRunnerState (mkApiKwargs a b t (Some c) o) w)
  = (Ok x, mkRunnerState (mkApiKwargs a b t (Some c) o) w) ->
  config_default World key v (mkRunnerState (mkApiKwargs a b t (Some c) o) w)
  = (Ok tt, mkRunnerState
              (mkApiKwargs a b t (Some (c ++ missing_from c [(key, x)])%list) o) w).
Proof.
  intros Hv. unfold config_default, bind, current_config, missing_from. simpl.
  destruct (config_has c key) eqn:E; simpl.
  - rewrite app_nil_r. reflexivity.
  - rewrite Hv. unfold set_config, update. simpl.
    rewrite config_set_absent by exact E. reflexivity.
Qed.

Lemma optional_file_step (files : names) (key file_key : string)
    (a b t : option string) (c : api.config) (o : names) (w : World) :
  (c0 <- current_config World ;;
   if negb (config_has c0 key) && names_has files file_key
   then (v <- files_getitem World files file_key ;; set_config World key (api.VStr v))
   else ret tt) (mkRunnerState (mkApiKwargs a b t (Some c) o) w)
  = (Ok tt, mkRunnerState
              (mkApiKwargs a b t
                 (Some (c ++ missing_from c
                               match names_get files file_key with
                               | Some v => [(key, api.VStr v)]
                               | None => []
                               end)%list) o) w).
Proof.
  unfold bind, current_config, missing_from, files_getitem. simpl.
  rewrite names_has_get.
  destruct (names_get files file_key) as [v|]; simpl.
  - destruct (config_has c key) eqn:E; simpl.
    + rewrite app_nil_r. reflexivity.
    + unfold set_config, update. simpl. rewrite config_set_absent by exact E. reflexivity.
  - rewrite andb_false_r, app_nil_r. reflexivity.
Qed.


Variable Astromatic_init : M (RunnerState World) unit.
Variable Astromatic_call : api_call -> M (RunnerState World) pipeline.PyResult.

(** X19.  The default [api_kwargs] is one [dict] for all calls.  Calling
    [run_sex] without [api_kwargs] in the module as it is, where no
    [pipeline] is in scope: the call raises [NameError] before the tool is
    reached, but has by then written its defaults into the default [dict];
    a second such call, for another image, finds CATALOG_NAME there and
    keeps the catalogue name of the first image. *)
Theorem run_sex_default_kwargs_are_shared (self : RunnerSelf)
    (step1 step2 : pipeline.scalar) (files1 files2 : names)
    (frames1 frames2 : option (list Z)) (image1 : string) (w : World) :
  names_get files1 "image" = Some image1 ->
  let first := run_sex Astromatic_init Astromatic_call self (mkScope None) step1
                 files1 frames1 (mkRunnerState empty_kwargs w) in
  let second := run_sex Astromatic_init Astromatic_call self (mkScope None) step2
                  files2 frames2 (snd first) in
  fst first = Raise (NameError "pipeline")
  /\ outside (snd first) = w
  /\ config_get (default [] (config (kwargs (snd first)))) "CATALOG_NAME"
     = Some (api.VStr (replace image1 ".fits" ".cat"))
  /\ fst second = Raise (NameError "pipeline")
  /\ outside (snd second) = w
  /\ config_get (default [] (config (kwargs (snd second)))) "CATALOG_NAME"
     = Some (api.VStr (replace image1 ".fits" ".cat")).
Proof.
  intros Himage first second. subst first second.
  unfold run_sex, prepare_sex, common_defaults, config_default, current_config,
    set_config, update, xml_name, files_getitem, bind, ret, raise, empty_kwargs.
  simpl. rewrite Himage. simpl.
  rewrite !names_has_get.
  destruct (names_get files1 "dqmask") as [dq1|];
    destruct (names_get files1 "wtmap") as [wt1|];
    destruct (names_get files2 "dqmask") as [dq2|];
    destruct (names_get files2 "wtmap") as [wt2|];
    simpl; repeat split.
Qed.

Lemma only_adds_sex_tail (scope : Scope) (step_id : pipeline.scalar) (files : names) :
  only_adds
    ((c <- current_config World ;;
      if negb (config_has c "FLAG_IMAGE") && names_has files "dqmask"
      then (v <- files_getitem World files "dqmask" ;;
            set_config World "FLAG_IMAGE" (api.VStr v))
      else ret tt) ;;;
     (c <- current_config World ;;
      if negb (config_has c "WEIGHT_IMAGE") && names_has files "wtmap"
      then (v <- files_getitem World files "wtmap" ;;
            set_config World "WEIGHT_IMAGE" (api.VStr v))
      else ret tt) ;;;
     config_default World "WRITE_XML" (ret (api.VStr "Y")) ;;;
     config_default World "XML_NAME" (xml_name World scope step_id ".sex.log.xml")).
Proof.
  apply only_adds_bind; [apply only_adds_optional_file | intros _].
  apply only_adds_bind; [apply only_adds_optional_file | intros _].
  apply only_adds_bind; [apply only_adds_config_default; reflexivity | intros _].
  apply only_adds_config_default. intros st. apply xml_name_state.
Qed.

Lemma replace_absent (old new s : string) :
  occurs old s = false -> replace_from old new 0 s = s.
Proof.
  induction s as [|c rest IH]; [reflexivity|].
  intros H. change (String.prefix old (String c rest) || occurs old rest = false) in H.
  apply orb_false_iff in H. destruct H as [Hp Ho].
  change (replace_from old new 0 (String c rest))
    with (if String.prefix old (String c rest)
          then new ++ replace_from old new (String.length old - 1) rest
          else String c (replace_from old new 0 rest)).
  rewrite Hp, IH by exact Ho. reflexivity.
Qed.

Lemma replace_fits_suffix (base : string) :
  has_char "." base = false ->
  replace_from ".fits" ".cat" 0 (base ++ ".fits") = base ++ ".cat".
Proof.
  induction base as [|c rest IH]; [reflexivity|].
  intros H. simpl in H. apply orb_false_iff in H. destruct H as [Hc Hr].
  change ((String c rest ++ ".fits")%string) with (String c (rest ++ ".fits")).
  change (replace_from ".fits" ".cat" 0 (String c (rest ++ ".fits")))
    with (if String.prefix ".fits" (String c (rest ++ ".fits"))
          then ".cat" ++ replace_from ".fits" ".cat" 4 (rest ++ ".fits")
          else String c (replace_from ".fits" ".cat" 0 (rest ++ ".fits"))).
  assert (Hp : String.prefix ".fits" (String c (rest ++ ".fits")) = false).
  { change (String.prefix ".fits" (String c (rest ++ ".fits")))
      with (if ascii_dec "." c then String.prefix "fits" (rest ++ ".fits") else false).
    destruct (ascii_dec "." c) as [<-|]; [discriminate Hc | reflexivity]. }
  rewrite Hp, IH by exact Hr. reflexivity.
Qed.

(** X20.  The default catalogue name.  When the caller's configuration has
    no CATALOG_NAME and [files] names an image, [run_sex] sets CATALOG_NAME
    to the image name with every [.fits] replaced by [.cat], and it is there
    however the rest of the preparation ends.  For an image name that ends in
    [.fits] and has no other dot this is the name with [.cat] for [.fits];
    for an image name in which [.fits] does not occur it is the image name
    itself. *)
Theorem run_sex_default_catalog_name (self : RunnerSelf) (scope : Scope)
    (step_id : pipeline.scalar) (files : names) (st : RunnerState World)
    (image : string) :
  config_has (default [] (config (kwargs st))) "CATALOG_NAME" = false ->
  names_get files "image" = Some image ->
  config_get (default [] (config (kwargs (snd (prepare_sex self scope step_id files st)))))
    "CATALOG_NAME"
  = Some (api.VStr (replace image ".fits" ".cat"))
  /\ (occurs ".fits" image = false -> replace image ".fits" ".cat" = image)
  /\ (forall base, image = base ++ ".fits" -> has_char "." base = false ->
        replace image ".fits" ".cat" = base ++ ".cat").
Proof.
  intros Hno Himage. split; [|split].
  - unfold prepare_sex.
    erewrite bind_ok by (unfold common_defaults, update; reflexivity).
    erewrite bind_ok
      by (apply config_default_step; unfold bind, files_getitem; rewrite Himage;
          reflexivity).
    apply only_adds_keeps_entry; [apply only_adds_sex_tail|]. simpl.
    unfold missing_from. simpl. rewrite Hno. simpl.
    rewrite config_get_app_absent by exact Hno. reflexivity.
  - apply replace_absent.
  - intros base -> Hbase. apply replace_fits_suffix, Hbase.
Qed.

(** X21.  [save_catalog] is the exception.  With [save_catalog] given,
    [run_scamp] sets SAVE_REFCATALOG to [Y] and REFOUT_CATPATH to the path
    whatever the caller's configuration says for them, and they are so
    however the rest of the preparation ends; every other entry of the
    caller's keeps its value. *)
Theorem run_scamp_save_catalog_overrides (self : RunnerSelf) (scope : Scope)
    (step_id : pipeline.scalar) (path : string) (st : RunnerState World) :
  config_get (default [] (config (kwargs
                (snd (prepare_scamp self scope step_id (Some path) st)))))
    "REFOUT_CATPATH" = Some (api.VStr path)
  /\ config_get (default [] (config (kwargs
                   (snd (prepare_scamp self scope step_id (Some path) st)))))
       "SAVE_REFCATALOG" = Some (api.VStr "Y")
  /\ forall key v,
       key <> "SAVE_REFCATALOG" -> key <> "REFOUT_CATPATH" ->
       config_get (default [] (config (kwargs st))) key = Some v ->
       config_get (default [] (config (kwargs
                     (snd (prepare_scamp self scope step_id (Some path) st))))) key
       = Some v.
Proof.
  assert (Htail : only_adds
            (config_default World "WRITE_XML" (ret (api.VStr "Y")) ;;;
             config_default World "XML_NAME"
               (xml_name World scope step_id ".scamp.log.xml"))).
  { apply only_adds_bind; [apply only_adds_config_default; reflexivity | intros _].
    apply only_adds_config_default. intros s. apply xml_name_state. }
  unfold prepare_scamp.
  erewrite bind_ok by (unfold common_defaults, update; reflexivity).
  erewrite bind_ok by (unfold bind, set_config, update; reflexivity).
  split; [|split].
  - apply only_adds_keeps_entry; [exact Htail|]. simpl. apply config_get_set.
  - apply only_adds_keeps_entry; [exact Htail|]. simpl.
    rewrite config_get_set_other by discriminate. apply config_get_set.
  - intros key v H1 H2 Hg.
    apply only_adds_keeps_entry; [exact Htail|]. simpl.
    rewrite !config_get_set_other by assumption. exact Hg.
Qed.


(** X23.  Where [run_swarp] gives up.  Without IMAGEOUT_NAME in the
    configuration it raises [PipelineError] before the tool is reached, and
    has by then filled in [code], [cmd], [temp_path] and RESAMPLE_DIR in the
    caller's [api_kwargs].  With [frames] given it never runs the tool: once
    the [Astromatic] object is built, reading [files] raises [NameError]. *)
Theorem run_swarp_gives_up (self : RunnerSelf) (scope : Scope)
    (step_id : pipeline.scalar) (filenames : list string) (st : RunnerState World) :
  (config_has (default [] (config (kwargs st))) "IMAGEOUT_NAME" = false ->
   forall frames,
     run_swarp Astromatic_init Astromatic_call self scope step_id filenames frames st
     = (Raise (PipelineError "Must include a name for the new stacked image"),
        mkRunnerState
          (mkApiKwargs
             (Some (default "SWarp" (code (kwargs st))))
             (match cmd (kwargs st) with
              | Some c => Some c
              | None => names_get (build_paths self) "SWARP"
              end)
             (Some (default (self_temp_path self) (temp_path (kwargs st))))
             (Some (default [] (config (kwargs st))
                    ++ missing_from (default [] (config (kwargs st)))
                         [("RESAMPLE_DIR",
                           api.VStr (default (self_temp_path self)
                                       (temp_path (kwargs st))))])%list)
             (others (kwargs st)))
          (outside st)))
  /\ forall frames,
       run_swarp Astromatic_init Astromatic_call self scope step_id filenames
         (Some frames) st
       = match prepare_swarp self scope step_id st with
         | (Ok _, prepared) =>
             match Astromatic_init prepared with
             | (Ok _, built) => (Raise (NameError "files"), built)
             | (Raise e, built) => (Raise e, built)
             end
         | (Raise e, prepared) => (Raise e, prepared)
         end.
Proof.
  split.
  - intros Hno frames. unfold run_swarp.
    apply bind_raise. unfold prepare_swarp.
    erewrite bind_ok by (unfold common_defaults, update; reflexivity).
    erewrite bind_ok by (apply config_default_step; reflexivity).
    apply bind_raise. unfold bind, current_config. simpl.
    rewrite config_has_app, Hno. unfold missing_from. simpl.
    destruct (config_has (default [] (config (kwargs st))) "RESAMPLE_DIR"); reflexivity.
  - intros frames. unfold run_swarp, bind.
    destruct (prepare_swarp self scope step_id st) as [[u|e] prepared]; [|reflexivity].
    destruct (Astromatic_init prepared) as [[u'|e] built]; reflexivity.
Qed.

End RunnerFacts.

Section RunnerWitnesses.
Import runners.


Lemma run_sex_twice_without_kwargs :
  names_get test_files "image" = Some "img.fits"
  /\ fst (run_sex (ret tt) (fun _ => ret examples.success_result) test_self (mkScope None)
            (pipeline.SInt 0) test_files None (mkRunnerState empty_kwargs tt))
     = Raise (NameError "pipeline")
  /\ config_get
       (default []
          (config (kwargs
             (snd (run_sex (ret tt) (fun _ => ret examples.success_result) test_self
                     (mkScope None) (pipeline.SInt 1) [("image", "other.fits")] None
                     (snd (run_sex (ret tt) (fun _ => ret examples.success_result) test_self
                             (mkScope None) (pipeline.SInt 0) test_files None
                             (mkRunnerState empty_kwargs tt))))))))
       "CATALOG_NAME"
     = Some (api.VStr "img.cat").
Proof.
  pose proof (run_sex_default_kwargs_are_shared (ret tt) (fun _ => ret examples.success_result)
                test_self (pipeline.SInt 0) (pipeline.SInt 1) test_files
                [("image", "other.fits")] None None "img.fits" tt eq_refl) as H.
  split; [reflexivity|].
  split; [exact (proj1 H)|].
  exact (proj2 (proj2 (proj2 (proj2 (proj2 H))))).
Defined.

Lemma run_sex_default_catalog_name_of_one_image :
  config_has (default [] (config test_kwargs)) "CATALOG_NAME" = false
  /\ names_get test_files "image" = Some "img.fits"
  /\ config_get
       (default []
          (config (kwargs (snd (prepare_sex test_self (mkScope None) (pipeline.SInt 0)
                                  test_files (mkRunnerState test_kwargs tt))))))
       "CATALOG_NAME"
     = Some (api.VStr "img.cat")
  /\ replace "img.fits" ".fits" ".cat" = "img.cat".
Proof.
  pose proof (run_sex_default_catalog_name test_self (mkScope None) (pipeline.SInt 0)
                test_files (mkRunnerState test_kwargs tt) "img.fits" eq_refl eq_refl)
    as H.
  split; [reflexivity|]. split; [reflexivity|].
  split; [exact (proj1 H)|].
  exact (proj2 (proj2 H) "img" eq_refl eq_refl).
Defined.


End RunnerWitnesses.
